(** * Smart Resume Reviewer (src/app.py): a shallow embedding of the helpers
    and of the Analyze handler, with the properties of the specification. *)

From Stdlib Require Import String Ascii List Bool Arith Lia ZArith.
Import ListNotations.
Open Scope string_scope.
#[local] Set Warnings "-register-all".

(** ** Python strings

    A Python [str] is modelled as a [string] whose characters are the code
    points 0..255 (Latin-1 range). *)

Definition chr (n : nat) : ascii := ascii_of_nat n.
Definition nl : string := String (chr 10) EmptyString.
Definition dq : ascii := chr 34.

(** [str.isspace] on one character of the Latin-1 range. *)
Definition py_isspace (c : ascii) : bool :=
  let n := nat_of_ascii c in
  (Nat.leb 9 n && Nat.leb n 13) || (Nat.leb 28 n && Nat.leb n 32)
  || Nat.eqb n 133 || Nat.eqb n 160.

(** [str.find(c)] for a one-character needle: [None] plays the role of [-1]. *)
Fixpoint py_find (c : ascii) (s : string) : option nat :=
  match s with
  | EmptyString => None
  | String x s' =>
      if Ascii.eqb x c then Some 0
      else match py_find c s' with Some k => Some (S k) | None => None end
  end.

(** [str.rfind(c)] for a one-character needle. *)
Fixpoint py_rfind (c : ascii) (s : string) : option nat :=
  match s with
  | EmptyString => None
  | String x s' =>
      match py_rfind c s' with
      | Some k => Some (S k)
      | None => if Ascii.eqb x c then Some 0 else None
      end
  end.

(** [s[a:b]] for [0 <= a] and [0 <= b]: empty when [b <= a], clamped at the end. *)
Definition py_slice (s : string) (a b : nat) : string :=
  if Nat.ltb a b then substring a (b - a) s else EmptyString.

(** [str.lstrip()], [str.rstrip()] and [str.strip()] without arguments. *)
Fixpoint py_lstrip (s : string) : string :=
  match s with
  | EmptyString => EmptyString
  | String c s' => if py_isspace c then py_lstrip s' else s
  end.

Fixpoint rev_str (s : string) : string :=
  match s with
  | EmptyString => EmptyString
  | String c s' => rev_str s' ++ String c EmptyString
  end.

Definition py_rstrip (s : string) : string := rev_str (py_lstrip (rev_str s)).

Definition py_strip (s : string) : string := py_rstrip (py_lstrip s).

(** [sep.join(xs)]. *)
Fixpoint py_join (sep : string) (xs : list string) : string :=
  match xs with
  | [] => EmptyString
  | [x] => x
  | x :: xs' => x ++ sep ++ py_join sep xs'
  end.

(** Truthiness of a [str]. *)
Definition str_truthy (s : string) : bool :=
  match s with EmptyString => false | _ => true end.

(** ** JSON values as [json.loads] returns them

    Objects keep their members in source order (a Python dict built from
    them keeps the last value of a repeated key).  Numbers are integers: no
    property below inspects a number's value. *)

Inductive json : Type :=
| JNull
| JBool (b : bool)
| JNum (z : Z)
| JStr (s : string)
| JArr (l : list json)
| JObj (m : list (string * json)).

(** Python truthiness of a decoded value ([if parsed]). *)
Definition py_truthy (v : json) : bool :=
  match v with
  | JNull => false
  | JBool b => b
  | JNum z => negb (Z.eqb z 0)
  | JStr s => str_truthy s
  | JArr l => negb (Nat.eqb (List.length l) 0)
  | JObj m => negb (Nat.eqb (List.length m) 0)
  end.

(** ** [parse_json_from_model] (app.py, lines 64-73)

    [json.loads] is the standard library's decoder; it is a parameter
    [loads] of the embedding, [None] meaning that it raised.  The
    function's own result is [None] for [return None] (also the
    [except Exception] branch) and [Some v] for [return json.loads(...)]. *)

Definition parse_json_from_model (loads : string -> option json) (text : string)
  : option json :=
  match py_find "{" text, py_rfind "}" text with
  | Some start, Some end_ =>
      let json_text := py_slice text start (end_ + 1) in
      loads json_text
  | _, _ => None
  end.

(** The Python value returned is [None]: either a [return None], or
    [json.loads] itself produced [None] (the JSON literal [null]). *)
Definition py_is_none (r : option json) : bool :=
  match r with None | Some JNull => true | Some _ => false end.

(** ** [fallback_mock_feedback] (app.py, lines 75-91) *)

Definition fallback_improved_resume : string :=
  "Header: Name | email" ++ nl ++
  "Summary: Data-focused product manager..." ++ nl ++
  "Experience: ..." ++ nl ++
  "Skills: Python, SQL, ML, A/B testing".

Definition fallback_mock_feedback (resume_text job_role job_desc : string) : json :=
  JObj [
    ("skills", JArr [JStr "communication"; JStr "teamwork"; JStr "problem solving"]);
    ("improvements", JArr [
        JStr "Quantify achievements (use numbers/metrics).";
        JStr "Use active verbs (Led, Built, Improved).";
        JStr "Move education below experience if 3+ years work experience."]);
    ("tailored_examples", JArr [
        JStr "Led a 3-person data team to build a recommendation engine that increased CTR by 12%.";
        JStr "Improved ETL pipeline latency by 40% using optimized SQL and batch processing.";
        JStr "Designed A/B tests and analyzed results to increase activation by 8%."]);
    ("scoring", JObj [("relevance", JNum 7); ("clarity", JNum 7);
                      ("format", JNum 6); ("overall", JNum 7)]);
    ("improved_resume", JStr fallback_improved_resume);
    ("highlights", JArr [JStr "Python"; JStr "SQL"; JStr "A/B testing"; JStr job_role])
  ].

(** ** [generate_prompt_for_llm] (app.py, lines 37-53): the f-string. *)

Definition instruction_block : string :=
  "You are an expert career coach and resume editor. Output a JSON object with these keys:" ++ nl ++
  "- skills: list of strings (missing keywords / skills relevant to the role)" ++ nl ++
  "- improvements: list of short suggestions for wording, formatting, clarity" ++ nl ++
  "- tailored_examples: list of 3 short edits (1-2 lines each)" ++ nl ++
  "- scoring: object with keys (relevance, clarity, format, overall) values 0-10" ++ nl ++
  "- improved_resume: string containing a short improved version of the resume" ++ nl ++
  "- highlights: list of keywords found or suggested to add" ++ nl.

Definition generate_prompt_for_llm (resume_text job_role job_desc : string) : string :=
  nl ++ instruction_block ++ nl ++
  "Role: " ++ job_role ++ nl ++
  "Job description: " ++ (if str_truthy job_desc then job_desc else "None") ++ nl ++
  nl ++
  "Resume Text:" ++ nl ++
  resume_text ++ nl.

(** ** A decoder for a JSON subset

    An instance of the [loads] parameter used to run the handler on
    concrete replies: [null], [true], [false], integers, strings with the
    one-character escapes, arrays and objects, surrounded by JSON
    whitespace.  On this subset it computes what [json.loads] computes. *)

Definition json_ws (c : ascii) : bool :=
  let n := nat_of_ascii c in Nat.eqb n 32 || Nat.eqb n 9 || Nat.eqb n 10 || Nat.eqb n 13.

Fixpoint skip_ws (s : string) : string :=
  match s with
  | String c s' => if json_ws c then skip_ws s' else s
  | EmptyString => EmptyString
  end.

Fixpoint strip_prefix (p s : string) : option string :=
  match p, s with
  | EmptyString, _ => Some s
  | String a p', String b s' => if Ascii.eqb a b then strip_prefix p' s' else None
  | _, _ => None
  end.

Definition digit_val (c : ascii) : option nat :=
  let n := nat_of_ascii c in
  if Nat.leb 48 n && Nat.leb n 57 then Some (n - 48) else None.

(** Digits of an integer; the accumulator is the value read so far. *)
Fixpoint p_digits (acc : Z) (s : string) : Z * string :=
  match s with
  | String c s' =>
      match digit_val c with
      | Some d => p_digits (acc * 10 + Z.of_nat d) s'
      | None => (acc, s)
      end
  | EmptyString => (acc, s)
  end.

(** An optional minus sign, then [0] or a non-zero digit followed by
    digits; fractions and exponents are outside the subset. *)
Definition p_number (s : string) : option (Z * string) :=
  let '(neg, s1) := match s with
                    | String c s' => if Ascii.eqb c "-" then (true, s') else (false, s)
                    | EmptyString => (false, s)
                    end in
  match s1 with
  | String c s' =>
      match digit_val c with
      | Some 0 => Some (0%Z, s')
      | Some d =>
          let '(z, r) := p_digits (Z.of_nat d) s' in
          Some ((if neg then - z else z)%Z, r)
      | None => None
      end
  | EmptyString => None
  end.

Definition unescape (c : ascii) : option ascii :=
  let n := nat_of_ascii c in
  if Nat.eqb n 34 then Some c
  else if Nat.eqb n 92 then Some c
  else if Nat.eqb n 47 then Some c
  else if Nat.eqb n 98 then Some (chr 8)
  else if Nat.eqb n 102 then Some (chr 12)
  else if Nat.eqb n 110 then Some (chr 10)
  else if Nat.eqb n 114 then Some (chr 13)
  else if Nat.eqb n 116 then Some (chr 9)
  else None.

(** The body of a string literal, after its opening quote. *)
Fixpoint p_string (s : string) : option (string * string) :=
  match s with
  | EmptyString => None
  | String c s' =>
      if Ascii.eqb c dq then Some (EmptyString, s')
      else if Nat.eqb (nat_of_ascii c) 92 then
        match s' with
        | String e s'' =>
            match unescape e, p_string s'' with
            | Some e', Some (x, r) => Some (String e' x, r)
            | _, _ => None
            end
        | EmptyString => None
        end
      else if Nat.ltb (nat_of_ascii c) 32 then None
      else match p_string s' with
           | Some (x, r) => Some (String c x, r)
           | None => None
           end
  end.

Fixpoint p_value (fuel : nat) (s : string) {struct fuel} : option (json * string) :=
  match fuel with
  | O => None
  | S f =>
      match skip_ws s with
      | EmptyString => None
      | String c r =>
          if Ascii.eqb c "{" then p_object f r
          else if Ascii.eqb c "[" then p_array f r
          else if Ascii.eqb c dq then
            match p_string r with Some (x, r') => Some (JStr x, r') | None => None end
          else match strip_prefix "null" (String c r) with
               | Some r' => Some (JNull, r')
               | None =>
          match strip_prefix "true" (String c r) with
               | Some r' => Some (JBool true, r')
               | None =>
          match strip_prefix "false" (String c r) with
               | Some r' => Some (JBool false, r')
               | None =>
          match p_number (String c r) with
               | Some (z, r') => Some (JNum z, r')
               | None => None
          end end end end
      end
  end
(* after the opening brace *)
with p_object (fuel : nat) (s : string) {struct fuel} : option (json * string) :=
  match fuel with
  | O => None
  | S f =>
      match skip_ws s with
      | String c r => if Ascii.eqb c "}" then Some (JObj [], r) else p_members f [] s
      | EmptyString => None
      end
  end
(* one member, then a comma and more members or the closing brace *)
with p_members (fuel : nat) (acc : list (string * json)) (s : string) {struct fuel}
  : option (json * string) :=
  match fuel with
  | O => None
  | S f =>
      match skip_ws s with
      | String q r =>
          if Ascii.eqb q dq then
            match p_string r with
            | Some (k, r1) =>
                match skip_ws r1 with
                | String colon r2 =>
                    if Ascii.eqb colon ":" then
                      match p_value f r2 with
                      | Some (v, r3) =>
                          match skip_ws r3 with
                          | String d r4 =>
                              if Ascii.eqb d "," then p_members f ((acc ++ [(k, v)])%list) r4
                              else if Ascii.eqb d "}" then Some (JObj ((acc ++ [(k, v)])%list), r4)
                              else None
                          | EmptyString => None
                          end
                      | None => None
                      end
                    else None
                | EmptyString => None
                end
            | None => None
            end
          else None
      | EmptyString => None
      end
  end
(* after the opening bracket *)
with p_array (fuel : nat) (s : string) {struct fuel} : option (json * string) :=
  match fuel with
  | O => None
  | S f =>
      match skip_ws s with
      | String c r => if Ascii.eqb c "]" then Some (JArr [], r) else p_elems f [] s
      | EmptyString => None
      end
  end
with p_elems (fuel : nat) (acc : list json) (s : string) {struct fuel}
  : option (json * string) :=
  match fuel with
  | O => None
  | S f =>
      match p_value f s with
      | Some (v, r) =>
          match skip_ws r with
          | String d r' =>
              if Ascii.eqb d "," then p_elems f ((acc ++ [v])%list) r'
              else if Ascii.eqb d "]" then Some (JArr ((acc ++ [v])%list), r')
              else None
          | EmptyString => None
          end
      | None => None
      end
  end.

Definition json_loads_subset (s : string) : option json :=
  match p_value (2 * String.length s + 2) s with
  | Some (v, r) => match skip_ws r with EmptyString => Some v | _ => None end
  | None => None
  end.

(** [dq ++ s ++ dq]: a JSON string literal without escapes. *)
Definition qt (s : string) : string := String dq s ++ String dq EmptyString.

(** ** Dict access on the result ([result.get(k, default)])

    A Python dict built by [json.loads] keeps the last value of a repeated
    key, so the lookup returns the last binding. *)

Fixpoint dict_get (m : list (string * json)) (k : string) : option json :=
  match m with
  | [] => None
  | (k', v) :: m' =>
      match dict_get m' k with
      | Some w => Some w
      | None => if String.eqb k k' then Some v else None
      end
  end.

Definition dict_get_default (m : list (string * json)) (k : string) (d : json) : json :=
  match dict_get m k with Some v => v | None => d end.

(** The [highlights] list of a result. *)
Definition highlights_of (v : json) : option (list json) :=
  match v with
  | JObj m => match dict_get m "highlights" with Some (JArr l) => Some l | _ => None end
  | _ => None
  end.

(** ** Rendering of the result (app.py, lines 186-212)

    Whether the Python statements that display the result raise:
    [", ".join(result.get("skills", []))] needs an iterable of [str] (a
    [str], a dict, whose keys are strings, or a list of strings); the
    [for] loops over [improvements] and [tailored_examples] need an
    iterable; [scoring.get(...)] needs a dict; and [result.get] needs the
    result itself to be a dict.  The f-strings never raise. *)

Definition is_jstr (v : json) : bool := match v with JStr _ => true | _ => false end.

Definition join_ok (v : json) : bool :=
  match v with
  | JStr _ | JObj _ => true
  | JArr l => forallb is_jstr l
  | _ => false
  end.

Definition iter_ok (v : json) : bool :=
  match v with JStr _ | JArr _ | JObj _ => true | _ => false end.

Definition has_get (v : json) : bool :=
  match v with JObj _ => true | _ => false end.

Definition render_ok (result : json) : bool :=
  match result with
  | JObj m =>
      join_ok (dict_get_default m "skills" (JArr []))
      && iter_ok (dict_get_default m "improvements" (JArr []))
      && iter_ok (dict_get_default m "tailored_examples" (JArr []))
      && has_get (dict_get_default m "scoring" (JObj []))
  | _ => false
  end.

(** ** The Analyze handler (app.py, lines 164-232)

    The handler runs when the button is pressed.  [call_openai_with_prompt]
    is the remote call: a parameter [provider] of the embedding returning
    the reply content or the message of the exception it raised.  The
    [openai.api_key] read at start-up is [api_key]; the widgets' values
    are the other fields of [analyze_input]. *)

Inductive call_result : Type :=
| CallOk (content : string)
| CallRaise (message : string).

(** What the handler shows, in order; [EvProviderCall p] records one
    invocation of [call_openai_with_prompt p]. *)
Inductive event : Type :=
| EvError (msg : string)
| EvInfo (msg : string)
| EvProviderCall (prompt : string)
| EvRawOutput (raw : string).

Record analyze_input : Type := {
  use_mock : bool;
  show_raw_model : bool;
  api_key : option string;
  resume_text : string;
  job_role : string;
  job_desc : string
}.

(** The session value under the key [improved_preview]. *)
Definition session := option json.

Record outcome : Type := {
  out_events : list event;
  out_result : option json;
  out_render_ok : bool;
  out_session : session
}.

Definition key_truthy (k : option string) : bool :=
  match k with Some s => str_truthy s | None => false end.

Definition validation_msg : string := "Please provide both resume and target job role.".
Definition mock_msg : string := "Using MOCK feedback mode (no API calls).".

(** The [with st.spinner(...)] block: events shown and [result]. *)
Definition generate_feedback (loads : string -> option json)
    (provider : string -> call_result) (inp : analyze_input) : list event * json :=
  let fallback := fallback_mock_feedback (resume_text inp) (job_role inp) (job_desc inp) in
  if use_mock inp || negb (key_truthy (api_key inp)) then
    ([EvInfo mock_msg], fallback)
  else
    let prompt := generate_prompt_for_llm (resume_text inp) (job_role inp) (job_desc inp) in
    match provider prompt with
    | CallRaise e => ([EvProviderCall prompt; EvError ("OpenAI API error: " ++ e)], fallback)
    | CallOk raw_text =>
        let parsed := parse_json_from_model loads raw_text in
        (EvProviderCall prompt :: (if show_raw_model inp then [EvRawOutput raw_text] else []),
         match parsed with
         | Some v => if py_truthy v then v else fallback
         | None => fallback
         end)
    end.

(** The keyed [st.text_area]: a value already held under the key is kept,
    otherwise the widget starts from [value=improved_text]. *)
Definition text_area_state (st : session) (improved_text : json) : session :=
  match st with Some v => Some v | None => Some improved_text end.

Definition analyze (loads : string -> option json) (provider : string -> call_result)
    (inp : analyze_input) (st : session) : outcome :=
  if negb (str_truthy (resume_text inp)) || negb (str_truthy (job_role inp)) then
    {| out_events := [EvError validation_msg]; out_result := None;
       out_render_ok := true; out_session := st |}
  else
    let '(evs, result) := generate_feedback loads provider inp in
    let ok := render_ok result in
    let improved_text := match result with
                         | JObj m => dict_get_default m "improved_resume" (JStr EmptyString)
                         | _ => JStr EmptyString
                         end in
    {| out_events := evs; out_result := Some result; out_render_ok := ok;
       out_session := if ok then text_area_state st improved_text else st |}.

(** Number of remote calls made by one Analyze action. *)
Definition provider_calls (evs : list event) : nat :=
  List.length (filter (fun e => match e with EvProviderCall _ => true | _ => false end) evs).

(** ** [extract_text_from_pdf] (app.py, lines 25-35)

    [PdfReader] and [page.extract_text()] are PyPDF2's.  An upload is
    modelled by what they do: [None] when [PdfReader(uploaded_file)]
    raises, otherwise the outcome of [extract_text()] on each page in
    order: it raises, returns [None], or returns a string. *)

Inductive page_text : Type :=
| PageRaises
| PageNone
| PageText (s : string).

Definition pdf_upload := option (list page_text).

(** The [for] loop: [None] when an [extract_text()] raises. *)
Fixpoint collect_page_texts (pages : list page_text) : option (list string) :=
  match pages with
  | [] => Some []
  | PageRaises :: _ => None
  | PageNone :: ps => collect_page_texts ps
  | PageText p :: ps =>
      if str_truthy p then option_map (cons p) (collect_page_texts ps)
      else collect_page_texts ps
  end.

Definition double_nl : string := nl ++ nl.

Definition extract_text_from_pdf (uploaded_file : pdf_upload) : string :=
  match uploaded_file with
  | None => EmptyString
  | Some pages =>
      match collect_page_texts pages with
      | Some texts => py_strip (py_join double_nl texts)
      | None => EmptyString
      end
  end.

(** The non-empty page texts, in page order. *)
Fixpoint nonempty_page_texts (pages : list page_text) : list string :=
  match pages with
  | [] => []
  | PageText p :: ps => if str_truthy p then p :: nonempty_page_texts ps else nonempty_page_texts ps
  | _ :: ps => nonempty_page_texts ps
  end.

(** ** [textwrap.wrap(line, width=95)] (Python's textwrap module)

    Default options: tabs expanded to columns of 8, the other whitespace
    characters of [textwrap._whitespace] replaced by spaces, whitespace
    dropped at the start and end of lines, long words broken. *)

Definition wrap_width : nat := 95.

(** [textwrap._whitespace]: tab, newline, vertical tab, form feed,
    carriage return and space. *)
Definition tw_ws (c : ascii) : bool :=
  let n := nat_of_ascii c in (Nat.leb 9 n && Nat.leb n 13) || Nat.eqb n 32.

Fixpoint spaces (k : nat) : string :=
  match k with O => EmptyString | S k' => String " " (spaces k') end.

(** [str.expandtabs(8)] from column [col]. *)
Fixpoint expand_tabs_from (col : nat) (s : string) : string :=
  match s with
  | EmptyString => EmptyString
  | String c s' =>
      let n := nat_of_ascii c in
      if Nat.eqb n 9 then
        let incr := 8 - col mod 8 in spaces incr ++ expand_tabs_from (col + incr) s'
      else if Nat.eqb n 10 || Nat.eqb n 13 then String c (expand_tabs_from 0 s')
      else String c (expand_tabs_from (S col) s')
  end.

Fixpoint translate_ws (s : string) : string :=
  match s with
  | EmptyString => EmptyString
  | String c s' => String (if tw_ws c then " " else c) (translate_ws s')
  end.

(** [TextWrapper._munge_whitespace]. *)
Definition munge_whitespace (text : string) : string :=
  translate_ws (expand_tabs_from 0 text).

(** Character classes of [TextWrapper.wordsep_re] on Latin-1 characters.
    [\w] is [str.isalnum()] or the underscore; [\d] is the ASCII digits. *)
Definition re_word (c : ascii) : bool :=
  let n := nat_of_ascii c in
  (Nat.leb 48 n && Nat.leb n 57) || (Nat.leb 65 n && Nat.leb n 90) || Nat.eqb n 95
  || (Nat.leb 97 n && Nat.leb n 122) || Nat.eqb n 170 || (Nat.leb 178 n && Nat.leb n 179)
  || Nat.eqb n 181 || (Nat.leb 185 n && Nat.leb n 186) || (Nat.leb 188 n && Nat.leb n 190)
  || (Nat.leb 192 n && Nat.leb n 214) || (Nat.leb 216 n && Nat.leb n 246) || Nat.leb 248 n.

Definition re_digit (c : ascii) : bool :=
  let n := nat_of_ascii c in Nat.leb 48 n && Nat.leb n 57.

(** [letter]: a word character that is not a digit. *)
Definition tw_letter (c : ascii) : bool := re_word c && negb (re_digit c).

(** [word_punct]: a word character or one of the seven punctuation marks
    of the pattern (exclamation mark, double quote, apostrophe, ampersand,
    full stop, comma, question mark). *)
Definition tw_word_punct (c : ascii) : bool :=
  re_word c || existsb (Ascii.eqb c) ["!"; dq; "'"; "&"; "."; ","; "?"]%char.

(** The run of [-] at the head of a list, and what follows it. *)
Fixpoint dash_run (l : list ascii) : nat * list ascii :=
  match l with
  | c :: l' => if Ascii.eqb c "-" then let '(k, r) := dash_run l' in (S k, r) else (0, l)
  | [] => (0, [])
  end.

(** The lookahead [-{2,}\w]: with backtracking, the whole run of [-] has
    at least two of them and a word character follows it. *)
Definition em_dash_ahead (l : list ascii) : bool :=
  let '(k, r) := dash_run l in
  Nat.leb 2 k && match r with x :: _ => re_word x | [] => false end.

Definition head_word_punct (prev : list ascii) : bool :=
  match prev with p :: _ => tw_word_punct p | [] => false end.

Definition head_letter (l : list ascii) : bool :=
  match l with x :: _ => tw_letter x | [] => false end.

(** The hyphenated-word alternative at the head of [rest]: a [-], preceded
    by two letters or by letter, [-], letter, and followed by a letter,
    an optional [-] and a letter.  [prev] holds the characters before,
    nearest first (lookbehinds see past the start of the match). *)
Definition hyphen_break (prev rest : list ascii) : bool :=
  match rest with
  | h :: r =>
      Ascii.eqb h "-"
      && match prev with
         | a :: b :: p => (tw_letter a && tw_letter b)
                          || (tw_letter a && Ascii.eqb b "-" && head_letter p)
         | _ => false
         end
      && match r with
         | x :: y :: r' => tw_letter x && (tw_letter y || (Ascii.eqb y "-" && head_letter r'))
         | _ => false
         end
  | [] => false
  end.

(** The lazy [nowhitespace+?] of the word alternative: [n] characters are
    taken; the match ends at the first position where the hyphenated-word
    (taking the [-]), end-of-word or em-dash alternative succeeds. *)
Fixpoint word_end (prev rest : list ascii) (n : nat) : nat :=
  if hyphen_break prev rest then S n else
  match rest with
  | [] => n
  | d :: r =>
      if tw_ws d then n
      else if head_word_punct prev && em_dash_ahead rest then n
      else word_end (d :: prev) r (S n)
  end.

Fixpoint ws_run_len (l : list ascii) : nat :=
  match l with c :: l' => if tw_ws c then S (ws_run_len l') else 0 | [] => 0 end.

(** Length of the match of [wordsep_re] at the head of [rest], its three
    alternatives tried in order: whitespace, em-dash between words, word. *)
Definition match_len (prev rest : list ascii) : nat :=
  match rest with
  | [] => 0
  | c :: r =>
      if tw_ws c then ws_run_len rest
      else if head_word_punct prev && em_dash_ahead rest then fst (dash_run rest)
      else word_end (c :: prev) r 1
  end.

(** Successive matches from the head of [rest]; every position starts a
    match, so nothing lies between them. *)
Fixpoint split_from (fuel : nat) (prev rest : list ascii) : list string :=
  match fuel with
  | O => []
  | S f =>
      match rest with
      | [] => []
      | _ => let n := match_len prev rest in
             string_of_list_ascii (firstn n rest)
             :: split_from f (rev (firstn n rest) ++ prev)%list (skipn n rest)
      end
  end.

(** [TextWrapper._split]: [wordsep_re.split(text)] without its empty
    strings. *)
Definition split_chunks (s : string) : list string :=
  let l := list_ascii_of_string s in split_from (List.length l) [] l.

(** [chunk.strip() == '']. *)
Fixpoint is_blank (s : string) : bool :=
  match s with
  | EmptyString => true
  | String c s' => py_isspace c && is_blank s'
  end.

(** [s[:n]] and [s[n:]]. *)
Fixpoint str_take (n : nat) (s : string) : string :=
  match n, s with
  | S n', String c s' => String c (str_take n' s')
  | _, _ => EmptyString
  end.

Fixpoint str_drop (n : nat) (s : string) : string :=
  match n, s with
  | S n', String c s' => str_drop n' s'
  | _, _ => s
  end.

(** [''.join(xs)]. *)
Fixpoint concat_str (xs : list string) : string :=
  match xs with [] => EmptyString | x :: xs' => x ++ concat_str xs' end.

(** The inner [while chunks] loop of [_wrap_chunks]: chunks are taken
    while they fit. Python keeps the chunks reversed; here the head of the
    list is [chunks[-1]]. *)
Fixpoint take_fit (width cur_len : nat) (chunks : list string) : list string * list string :=
  match chunks with
  | [] => ([], [])
  | c :: cs =>
      if Nat.leb (cur_len + String.length c) width then
        let '(l, r) := take_fit width (cur_len + String.length c) cs in (c :: l, r)
      else ([], chunks)
  end.

(** [_handle_long_word] with [break_long_words] and [break_on_hyphens]:
    [end] is where the chunk is cut, after its last hyphen within
    [space_left] when non-hyphens precede that hyphen. *)
Definition long_word_end (space_left : nat) (chunk : string) : nat :=
  if Nat.ltb space_left (String.length chunk) then
    match py_rfind "-" (str_take space_left chunk) with
    | Some hyphen =>
        if Nat.ltb 0 hyphen
           && negb (forallb (fun c => Ascii.eqb c "-")
                            (list_ascii_of_string (str_take hyphen chunk)))
        then hyphen + 1 else space_left
    | None => space_left
    end
  else space_left.

Definition handle_long_word (chunks cur_line : list string) (cur_len width : nat)
  : list string * list string :=
  match chunks with
  | [] => (cur_line, chunks)
  | chunk :: rest =>
      let space_left := if Nat.ltb width 1 then 1 else width - cur_len in
      let end_ := long_word_end space_left chunk in
      ((cur_line ++ [str_take end_ chunk])%list, str_drop end_ chunk :: rest)
  end.

(** One pass of the outer [while chunks] loop of [_wrap_chunks]. *)
Definition wrap_step (width : nat) (lines chunks : list string) : list string * list string :=
  let chunks1 :=
    match chunks with
    | c :: cs => if is_blank c && negb (Nat.eqb (List.length lines) 0) then cs else chunks
    | [] => []
    end in
  let '(cur_line, chunks2) := take_fit width 0 chunks1 in
  let cur_len := String.length (concat_str cur_line) in
  let '(cur_line', chunks3) :=
    match chunks2 with
    | c :: _ => if Nat.ltb width (String.length c)
                then handle_long_word chunks2 cur_line cur_len width
                else (cur_line, chunks2)
    | [] => (cur_line, chunks2)
    end in
  let cur_line'' :=
    match rev cur_line' with
    | last :: _ => if is_blank last then removelast cur_line' else cur_line'
    | [] => cur_line'
    end in
  let lines' := match cur_line'' with
                | [] => lines
                | _ => (lines ++ [concat_str cur_line''])%list
                end in
  (lines', chunks3).

(** Size of the pending chunks; every pass makes it smaller. *)
Fixpoint chunks_measure (chunks : list string) : nat :=
  match chunks with [] => 0 | c :: cs => S (String.length c) + chunks_measure cs end.

Fixpoint wrap_loop (width fuel : nat) (lines chunks : list string) : list string :=
  match fuel with
  | O => lines
  | S f =>
      match chunks with
      | [] => lines
      | _ => let '(lines', chunks') := wrap_step width lines chunks in
             wrap_loop width f lines' chunks'
      end
  end.

Definition textwrap_wrap (text : string) (width : nat) : list string :=
  let chunks := split_chunks (munge_whitespace text) in
  wrap_loop width (S (chunks_measure chunks)) [] chunks.

(** ** [create_pdf_from_text] (app.py, lines 93-115)

    The calls made on the [FPDF] object, in order; serialising them to
    bytes ([pdf.output]) is FPDF's. *)

Inductive pdf_op : Type :=
| SetAutoPageBreak (auto : bool) (margin : nat)
| AddPage
| SetFont (family style : string) (size : nat)
| Cell (w h : nat) (txt : string) (ln : bool) (align : string)
| Ln (h : nat)
| MultiCell (w h : nat) (txt : string).

(** [text.split("\n")]. *)
Fixpoint split_nl (s : string) : list string :=
  match s with
  | EmptyString => [EmptyString]
  | String c s' =>
      match split_nl s' with
      | [] => [String c EmptyString]
      | l :: ls => if Nat.eqb (nat_of_ascii c) 10 then EmptyString :: l :: ls
                   else String c l :: ls
      end
  end.

Definition line_ops (line : string) : list pdf_op :=
  let wrapped := textwrap_wrap line wrap_width in
  ((match wrapped with [] => [Ln 5] | _ => [] end) ++ map (MultiCell 0 6) wrapped)%list.

Definition create_pdf_from_text (text title : string) : list pdf_op :=
  ([SetAutoPageBreak true 15; AddPage; SetFont "Arial" EmptyString 12;
    SetFont "Arial" "B" 14; Cell 0 10 title true "C"; Ln 4;
    SetFont "Arial" EmptyString 11]
   ++ flat_map line_ops (split_nl text))%list.

(** [s * n]. *)
Definition rep (n : nat) (s : string) : string := concat_str (repeat s n).

(** [x] occurs in [s] as a contiguous substring. *)
Definition substr (x s : string) : Prop := exists pre post, s = pre ++ x ++ post.

(** A live-mode input with a configured key. *)
Definition live_input (resume role desc : string) : analyze_input :=
  {| use_mock := false; show_raw_model := false; api_key := Some "sk-test";
     resume_text := resume; job_role := role; job_desc := desc |}.

(** The characters of a string that are not whitespace, in order. *)
Fixpoint nonspace (s : string) : string :=
  match s with
  | EmptyString => EmptyString
  | String c s' => if py_isspace c then nonspace s' else String c (nonspace s')
  end.

(** A line whose characters are spaces or not in [textwrap._whitespace]:
    [_munge_whitespace] leaves it unchanged. *)
Definition plain_line (s : string) : bool :=
  forallb (fun c => negb (tw_ws c) || Ascii.eqb c " ") (list_ascii_of_string s).

(** At most one chunk, and that one blank. *)
Definition blank_chunks (chunks : list string) : Prop :=
  chunks = [] \/ exists x, chunks = [x] /\ is_blank x = true.

(** * Properties *)

(** ** String lemmas *)

Lemma str_app_assoc (a b c : string) : a ++ b ++ c = (a ++ b) ++ c.
Proof. induction a as [|x a IH]; simpl; [reflexivity | now rewrite IH]. Qed.

Lemma str_app_nil_r (a : string) : a ++ EmptyString = a.
Proof. induction a as [|x a IH]; simpl; [reflexivity | now rewrite IH]. Qed.

Lemma str_app_length (a b : string) : String.length (a ++ b) = String.length a + String.length b.
Proof. induction a as [|x a IH]; simpl; [reflexivity | now rewrite IH]. Qed.


(** ** The Analyze handler *)

Lemma str_truthy_nonempty (s : string) : str_truthy s = true <-> s <> EmptyString.
Proof. destruct s; simpl; split; congruence. Qed.

Lemma fallback_highlights (r j d : string) :
  highlights_of (fallback_mock_feedback r j d)
  = Some [JStr "Python"; JStr "SQL"; JStr "A/B testing"; JStr j].
Proof. reflexivity. Qed.

Lemma fallback_render_ok (r j d : string) : render_ok (fallback_mock_feedback r j d) = true.
Proof. reflexivity. Qed.

(** C3: with mock mode on or no API key, valid inputs yield exactly the
    fixed fallback payload, no remote call is made, and the [highlights]
    list ends with the job role. *)
Theorem analyze_mock_mode_fallback (loads : string -> option json)
    (provider : string -> call_result) (inp : analyze_input) (st : session) :
  resume_text inp <> EmptyString -> job_role inp <> EmptyString ->
  use_mock inp = true \/ key_truthy (api_key inp) = false ->
  let o := analyze loads provider inp st in
  out_result o = Some (fallback_mock_feedback (resume_text inp) (job_role inp) (job_desc inp))
  /\ provider_calls (out_events o) = 0
  /\ exists pre, highlights_of (fallback_mock_feedback (resume_text inp) (job_role inp) (job_desc inp))
                 = Some (pre ++ [JStr (job_role inp)])%list.
Proof.
  intros Hr Hj Hm o. subst o.
  apply str_truthy_nonempty in Hr, Hj.
  unfold analyze, generate_feedback. rewrite Hr, Hj. simpl.
  assert (Hb : (use_mock inp || negb (key_truthy (api_key inp))) = true).
  { destruct Hm as [H|H]; rewrite H; [reflexivity | apply orb_true_r]. }
  rewrite Hb. simpl. repeat split.
  exists [JStr "Python"; JStr "SQL"; JStr "A/B testing"]. reflexivity.
Qed.

(** The scenario of C3: resume "Experienced engineer.", role
    "Backend Engineer", mock mode on. *)
Lemma analyze_mock_mode_fallback_witness :
  let inp := {| use_mock := true; show_raw_model := false; api_key := None;
                resume_text := "Experienced engineer."; job_role := "Backend Engineer";
                job_desc := EmptyString |} in
  let o := analyze json_loads_subset (fun _ => CallRaise "unreachable") inp None in
  out_result o = Some (fallback_mock_feedback "Experienced engineer." "Backend Engineer" EmptyString)
  /\ provider_calls (out_events o) = 0
  /\ exists pre, highlights_of (fallback_mock_feedback "Experienced engineer." "Backend Engineer" EmptyString)
                 = Some (pre ++ [JStr "Backend Engineer"])%list.
Proof.
  apply (analyze_mock_mode_fallback json_loads_subset (fun _ => CallRaise "unreachable")
    {| use_mock := true; show_raw_model := false; api_key := None;
       resume_text := "Experienced engineer."; job_role := "Backend Engineer";
       job_desc := EmptyString |} None).
  - simpl; discriminate.
  - simpl; discriminate.
  - left; reflexivity.
Defined.


(** C4, as stated, fails: a reply whose JSON object decodes but whose
    [skills] is the number 5 is displayed as the result, and
    [", ".join(5)] raises, so this path ends in no rendered result. *)
Lemma analyze_unrenderable_reply :
  let o := analyze json_loads_subset
             (fun _ => CallOk ("Here you go: {" ++ qt "skills" ++ ": 5}"))
             (live_input "Experienced engineer." "Backend Engineer" EmptyString) None in
  out_result o = Some (JObj [("skills", JNum 5)]) /\ out_render_ok o = false.
Proof. vm_compute. split; reflexivity. Qed.

(** C4 (amended): one Analyze action makes at most one remote call; with
    valid inputs it always produces a result; and when the remote call
    raises, the error is shown and the result is the fallback payload for
    the same inputs, which renders. *)
Theorem analyze_provider_error_fallback (loads : string -> option json)
    (provider : string -> call_result) (inp : analyze_input) (st : session) :
  let o := analyze loads provider inp st in
  provider_calls (out_events o) <= 1
  /\ (resume_text inp <> EmptyString -> job_role inp <> EmptyString ->
      (exists r, out_result o = Some r)
      /\ (use_mock inp = false -> key_truthy (api_key inp) = true ->
          forall e, provider (generate_prompt_for_llm (resume_text inp) (job_role inp) (job_desc inp))
                    = CallRaise e ->
          out_result o = Some (fallback_mock_feedback (resume_text inp) (job_role inp) (job_desc inp))
          /\ out_render_ok o = true
          /\ In (EvError ("OpenAI API error: " ++ e)) (out_events o))).
Proof.
  cbv zeta. unfold analyze, generate_feedback, provider_calls.
  destruct (negb (str_truthy (resume_text inp)) || negb (str_truthy (job_role inp))) eqn:Hv.
  - simpl. split; [lia|].
    intros Hr Hj. apply str_truthy_nonempty in Hr, Hj. rewrite Hr, Hj in Hv. discriminate.
  - destruct (use_mock inp || negb (key_truthy (api_key inp))) eqn:Hm.
    + simpl. split; [lia|]. intros _ _. split; [eauto|].
      intros H1 H2. rewrite H1, H2 in Hm. discriminate.
    + destruct (provider _) as [raw|msg] eqn:Hp.
      * simpl. split.
        -- destruct (show_raw_model inp); simpl; lia.
        -- intros _ _. split; [eauto|]. intros _ _ e He. congruence.
      * simpl. split; [lia|]. intros _ _. split; [eauto|].
        intros _ _ e He. injection He as <-.
        split; [reflexivity|]. split; [reflexivity|]. simpl; auto.
Qed.

Lemma analyze_provider_error_fallback_witness :
  let inp := live_input "Experienced engineer." "Backend Engineer" EmptyString in
  let o := analyze json_loads_subset (fun _ => CallRaise "Connection reset") inp None in
  provider_calls (out_events o) <= 1
  /\ (resume_text inp <> EmptyString -> job_role inp <> EmptyString ->
      (exists r, out_result o = Some r)
      /\ (use_mock inp = false -> key_truthy (api_key inp) = true ->
          forall e, (fun _ : string => CallRaise "Connection reset")
                      (generate_prompt_for_llm (resume_text inp) (job_role inp) (job_desc inp))
                    = CallRaise e ->
          out_result o = Some (fallback_mock_feedback (resume_text inp) (job_role inp) (job_desc inp))
          /\ out_render_ok o = true
          /\ In (EvError ("OpenAI API error: " ++ e)) (out_events o))).
Proof.
  exact (analyze_provider_error_fallback json_loads_subset (fun _ => CallRaise "Connection reset")
           (live_input "Experienced engineer." "Backend Engineer" EmptyString) None).
Defined.

(** C5: an empty resume or an empty job role yields the validation error
    alone: no remote call, no result, the session state unchanged. *)
Theorem analyze_validation_error (loads : string -> option json)
    (provider : string -> call_result) (inp : analyze_input) (st : session) :
  resume_text inp = EmptyString \/ job_role inp = EmptyString ->
  let o := analyze loads provider inp st in
  out_events o = [EvError validation_msg]
  /\ provider_calls (out_events o) = 0
  /\ out_result o = None
  /\ out_session o = st.
Proof.
  intros H o. subst o. unfold analyze.
  assert (Hv : (negb (str_truthy (resume_text inp)) || negb (str_truthy (job_role inp))) = true).
  { destruct H as [H|H]; rewrite H; simpl; [reflexivity | apply orb_true_r]. }
  rewrite Hv. repeat split.
Qed.

Lemma analyze_validation_error_witness :
  let o1 := analyze json_loads_subset (fun _ => CallOk "{}")
              (live_input EmptyString "Backend Engineer" EmptyString) None in
  let o2 := analyze json_loads_subset (fun _ => CallOk "{}")
              (live_input "Experienced engineer." EmptyString EmptyString) None in
  (out_events o1 = [EvError validation_msg] /\ provider_calls (out_events o1) = 0
   /\ out_result o1 = None /\ out_session o1 = None)
  /\ (out_events o2 = [EvError validation_msg] /\ provider_calls (out_events o2) = 0
   /\ out_result o2 = None /\ out_session o2 = None).
Proof.
  split.
  - apply (analyze_validation_error json_loads_subset (fun _ => CallOk "{}")
             (live_input EmptyString "Backend Engineer" EmptyString) None).
    left; reflexivity.
  - apply (analyze_validation_error json_loads_subset (fun _ => CallOk "{}")
             (live_input "Experienced engineer." EmptyString EmptyString) None).
    right; reflexivity.
Defined.

(** C6: the fallback payload depends on the job role only, and its
    [highlights] contain the job role verbatim. *)
Theorem fallback_independent_of_resume_and_desc (r1 r2 j d1 d2 : string) :
  fallback_mock_feedback r1 j d1 = fallback_mock_feedback r2 j d2
  /\ exists l, highlights_of (fallback_mock_feedback r1 j d1) = Some l /\ In (JStr j) l.
Proof.
  split; [reflexivity|].
  eexists; split; [apply fallback_highlights | simpl; tauto].
Qed.

(** C7: a reply whose brace-delimited part decodes to a falsy value (such
    as the empty object) is discarded: the fallback payload is shown. *)
Theorem analyze_falsy_parse_fallback (loads : string -> option json)
    (provider : string -> call_result) (inp : analyze_input) (st : session)
    (raw : string) (v : json) :
  resume_text inp <> EmptyString -> job_role inp <> EmptyString ->
  use_mock inp = false -> key_truthy (api_key inp) = true ->
  provider (generate_prompt_for_llm (resume_text inp) (job_role inp) (job_desc inp)) = CallOk raw ->
  parse_json_from_model loads raw = Some v -> py_truthy v = false ->
  out_result (analyze loads provider inp st)
  = Some (fallback_mock_feedback (resume_text inp) (job_role inp) (job_desc inp)).
Proof.
  intros Hr Hj Hm Hk Hp Hparse Hf.
  apply str_truthy_nonempty in Hr, Hj.
  unfold analyze, generate_feedback. rewrite Hr, Hj, Hm, Hk. simpl.
  rewrite Hp, Hparse, Hf. reflexivity.
Qed.

Lemma analyze_falsy_parse_fallback_witness :
  out_result (analyze json_loads_subset (fun _ => CallOk "Result: {} (empty)")
                (live_input "Experienced engineer." "Backend Engineer" EmptyString) None)
  = Some (fallback_mock_feedback "Experienced engineer." "Backend Engineer" EmptyString).
Proof.
  apply (analyze_falsy_parse_fallback json_loads_subset (fun _ => CallOk "Result: {} (empty)")
           (live_input "Experienced engineer." "Backend Engineer" EmptyString) None
           "Result: {} (empty)" (JObj [])); try reflexivity; simpl; discriminate.
Defined.

(** C8: the prompt embeds the instruction block and the three inputs
    verbatim, the job description rendering as "None" when empty, and it
    ends with the resume text unmodified. *)
Theorem prompt_embeds_inputs (resume role desc : string) :
  let p := generate_prompt_for_llm resume role desc in
  substr instruction_block p
  /\ substr ("Role: " ++ role ++ nl) p
  /\ substr desc p
  /\ (desc = EmptyString -> substr ("Job description: None" ++ nl) p)
  /\ (exists pre, p = pre ++ resume ++ nl)
  /\ substr resume p.
Proof.
  cbv zeta. unfold generate_prompt_for_llm.
  set (D := if str_truthy desc then desc else "None").
  split; [|split; [|split; [|split; [|split]]]].
  - exists nl; eexists. reflexivity.
  - exists (nl ++ instruction_block ++ nl); eexists.
    rewrite <- !str_app_assoc. reflexivity.
  - destruct (str_truthy desc) eqn:Hd; subst D.
    + exists (nl ++ instruction_block ++ nl ++ "Role: " ++ role ++ nl ++ "Job description: ").
      eexists. rewrite <- !str_app_assoc. reflexivity.
    + destruct desc; [|discriminate]. exists EmptyString; eexists. reflexivity.
  - intros ->. subst D. simpl str_truthy. cbv iota.
    exists (nl ++ instruction_block ++ nl ++ "Role: " ++ role ++ nl).
    eexists. rewrite <- !str_app_assoc. reflexivity.
  - exists (nl ++ instruction_block ++ nl ++ "Role: " ++ role ++ nl ++ "Job description: "
            ++ D ++ nl ++ nl ++ "Resume Text:" ++ nl).
    rewrite <- !str_app_assoc. reflexivity.
  - exists (nl ++ instruction_block ++ nl ++ "Role: " ++ role ++ nl ++ "Job description: "
            ++ D ++ nl ++ nl ++ "Resume Text:" ++ nl).
    exists nl. rewrite <- !str_app_assoc. reflexivity.
Qed.

(** ** [parse_json_from_model] *)

Lemma py_find_app_miss (c : ascii) (a b : string) :
  py_find c a = None ->
  py_find c (a ++ b) = option_map (Nat.add (String.length a)) (py_find c b).
Proof.
  induction a as [|x a IH]; simpl; intros H.
  - destruct (py_find c b); reflexivity.
  - destruct (Ascii.eqb x c); [discriminate|].
    destruct (py_find c a); [discriminate|].
    rewrite IH by reflexivity. destruct (py_find c b); reflexivity.
Qed.

Lemma py_find_head (c : ascii) (s : string) : py_find c (String c s) = Some 0.
Proof. simpl. now rewrite Ascii.eqb_refl. Qed.

Lemma py_rfind_app_last (c : ascii) (a b : string) :
  py_rfind c b = None -> py_rfind c (a ++ String c b) = Some (String.length a).
Proof.
  intros H. induction a as [|x a IH]; simpl.
  - rewrite H, Ascii.eqb_refl. reflexivity.
  - rewrite IH. reflexivity.
Qed.

Lemma substring_prefix (b c : string) : substring 0 (String.length b) (b ++ c) = b.
Proof. induction b as [|x b IH]; simpl; [now destruct c | now rewrite IH]. Qed.

Lemma substring_app (a b c : string) :
  substring (String.length a) (String.length b) (a ++ b ++ c) = b.
Proof. induction a as [|x a IH]; simpl; [apply substring_prefix | exact IH]. Qed.

(** The character found by [find] heads every non-empty slice starting there. *)
Lemma py_find_substring_head (c : ascii) (t : string) (i n : nat) :
  py_find c t = Some i -> exists r, substring i (S n) t = String c r.
Proof.
  revert i. induction t as [|x t IH]; simpl; intros i H; [discriminate|].
  destruct (Ascii.eqb x c) eqn:E.
  - injection H as <-. apply Ascii.eqb_eq in E. subst x. simpl. eauto.
  - destruct (py_find c t) as [k|] eqn:Ht; [|discriminate].
    injection H as <-. simpl. apply IH. reflexivity.
Qed.

(** C1: when the reply is [pre ++ obj ++ post], with no [{] in [pre], no
    [}] in [post], and [obj] a brace-delimited text that decodes to [v],
    the parser returns [v]. *)
Theorem parse_json_first_to_last_brace (loads : string -> option json)
    (pre body post : string) (v : json) :
  py_find "{" pre = None -> py_rfind "}" post = None ->
  loads (String "{" (body ++ String "}" EmptyString)) = Some v ->
  parse_json_from_model loads (pre ++ String "{" (body ++ String "}" EmptyString) ++ post) = Some v.
Proof.
  intros Hpre Hpost Hv. unfold parse_json_from_model.
  set (text := pre ++ String "{" (body ++ String "}" EmptyString) ++ post).
  assert (Hf : py_find "{" text = Some (String.length pre)).
  { subst text. rewrite (py_find_app_miss _ _ _ Hpre). simpl.
    f_equal; lia. }
  assert (Hr : py_rfind "}" text = Some (String.length pre + S (String.length body))).
  { assert (E : text = (pre ++ String "{" body) ++ String "}" post).
    { subst text. rewrite <- !str_app_assoc. simpl. rewrite <- str_app_assoc. reflexivity. }
    rewrite E, (py_rfind_app_last _ _ _ Hpost), str_app_length. reflexivity. }
  rewrite Hf, Hr. unfold py_slice.
  replace (Nat.ltb (String.length pre) (String.length pre + S (String.length body) + 1))
    with true by (symmetry; apply Nat.ltb_lt; lia).
  replace (String.length pre + S (String.length body) + 1 - String.length pre)
    with (String.length (String "{" (body ++ String "}" EmptyString)))
    by (simpl; rewrite str_app_length; simpl; lia).
  subst text. rewrite substring_app. exact Hv.
Qed.

Lemma parse_json_first_to_last_brace_witness :
  parse_json_from_model json_loads_subset
    ("Sure! " ++ String "{" ((qt "overall" ++ ": 7") ++ String "}" EmptyString) ++ " Hope it helps.")
  = Some (JObj [("overall", JNum 7)]).
Proof.
  apply parse_json_first_to_last_brace; vm_compute; reflexivity.
Defined.

(** C2: the parser returns Python [None] exactly when the reply has no
    [{], has no [}], or the slice from the first [{] to the last [}] does
    not decode; any value it returns is the decoding of that whole slice.
    The decoder is [json.loads]: it rejects the empty text and decodes a
    text starting with [{] to an object, never to [null]. *)
Theorem parse_json_no_result_iff (loads : string -> option json) :
  loads EmptyString = None ->
  (forall s, loads (String "{" s) <> Some JNull) ->
  forall text,
  (py_is_none (parse_json_from_model loads text) = true <->
     py_find "{" text = None \/ py_rfind "}" text = None
     \/ exists start end_, py_find "{" text = Some start /\ py_rfind "}" text = Some end_
                          /\ loads (py_slice text start (end_ + 1)) = None)
  /\ (forall v, parse_json_from_model loads text = Some v ->
      exists start end_, py_find "{" text = Some start /\ py_rfind "}" text = Some end_
                        /\ loads (py_slice text start (end_ + 1)) = Some v).
Proof.
  intros Hempty Hnull text. unfold parse_json_from_model.
  destruct (py_find "{" text) as [start|] eqn:Hf;
    [destruct (py_rfind "}" text) as [end_|] eqn:Hr|].
  - assert (Hnn : loads (py_slice text start (end_ + 1)) <> Some JNull).
    { unfold py_slice. destruct (Nat.ltb start (end_ + 1)) eqn:Hlt.
      - apply Nat.ltb_lt in Hlt.
        replace (end_ + 1 - start) with (S (end_ - start)) by lia.
        destruct (py_find_substring_head _ _ _ (end_ - start) Hf) as [r ->]. apply Hnull.
      - rewrite Hempty. discriminate. }
    split.
    + split.
      * intros H. right; right. exists start, end_. repeat split; auto.
        destruct (loads (py_slice text start (end_ + 1))) as [j|] eqn:El; [|reflexivity].
        destruct j; simpl in H; try discriminate. contradiction.
      * intros [H|[H|(s & e & H1 & H2 & H3)]]; try discriminate.
        injection H1 as <-. injection H2 as <-. rewrite H3. reflexivity.
    + intros v Hv. exists start, end_. auto.
  - split; [split; [intros _; auto | intros _; reflexivity] | intros v Hv; discriminate].
  - split; [split; [intros _; auto | intros _; reflexivity] | intros v Hv; discriminate].
Qed.

(** The subset decoder dispatches a text starting with [{] to an object. *)
Lemma p_members_object (f : nat) (acc : list (string * json)) (s : string) (v : json) (r : string) :
  p_members f acc s = Some (v, r) -> exists m, v = JObj m.
Proof.
  revert acc s. induction f as [|f IH]; intros acc s H; simpl in H; [discriminate|].
  repeat match type of H with
         | context [match ?x with _ => _ end] => destruct x; try discriminate
         end;
  try (injection H as <- _; eauto); eauto.
Qed.

Lemma json_loads_subset_brace (s : string) : json_loads_subset (String "{" s) <> Some JNull.
Proof.
  unfold json_loads_subset.
  replace (2 * String.length (String "{" s) + 2) with (S (S (2 * String.length s + 2)))
    by (simpl; lia).
  simpl p_value.
  destruct (skip_ws s) as [|c r0]; [congruence|].
  destruct (Ascii.eqb c "}"); [destruct (skip_ws r0); congruence|].
  match goal with
  | |- context [p_members ?f ?a ?x] => destruct (p_members f a x) as [[v r]|] eqn:E
  end; [|congruence].
  apply p_members_object in E as [m ->].
  destruct (skip_ws r); congruence.
Qed.

Lemma parse_json_no_result_iff_witness :
  (py_is_none (parse_json_from_model json_loads_subset "{} and {}") = true <->
     py_find "{" "{} and {}" = None \/ py_rfind "}" "{} and {}" = None
     \/ exists start end_, py_find "{" "{} and {}" = Some start
                          /\ py_rfind "}" "{} and {}" = Some end_
                          /\ json_loads_subset (py_slice "{} and {}" start (end_ + 1)) = None)
  /\ (forall v, parse_json_from_model json_loads_subset "{} and {}" = Some v ->
      exists start end_, py_find "{" "{} and {}" = Some start
                        /\ py_rfind "}" "{} and {}" = Some end_
                        /\ json_loads_subset (py_slice "{} and {}" start (end_ + 1)) = Some v).
Proof.
  apply parse_json_no_result_iff.
  - reflexivity.
  - apply json_loads_subset_brace.
Defined.

(** ** [extract_text_from_pdf] *)

Lemma collect_page_texts_spec (pages : list page_text) :
  collect_page_texts pages
  = if existsb (fun p => match p with PageRaises => true | _ => false end) pages
    then None else Some (nonempty_page_texts pages).
Proof.
  induction pages as [|[ | | p] ps IH]; simpl; try reflexivity; try exact IH.
  destruct (str_truthy p); rewrite IH; destruct (existsb _ ps); reflexivity.
Qed.

Lemma existsb_raises (pages : list page_text) :
  existsb (fun p => match p with PageRaises => true | _ => false end) pages = true
  <-> In PageRaises pages.
Proof.
  rewrite existsb_exists. split.
  - intros ([] & Hin & H); [exact Hin | discriminate | discriminate].
  - intros Hin. exists PageRaises. auto.
Qed.

(** C9, as stated, fails: the joined text is also stripped, so a page
    text with leading whitespace does not come back as it is. *)
Lemma extract_text_strips_counterexample :
  extract_text_from_pdf (Some [PageText " Summary"])
  <> py_join double_nl (nonempty_page_texts [PageText " Summary"]).
Proof. vm_compute. discriminate. Qed.

(** C9 (amended): the extractor is total; it returns the empty string when
    the reader or a page's extraction raises, and otherwise the non-empty
    page texts joined by blank lines and then stripped, hence the empty
    string when no page yields text. *)
Theorem extract_text_strip_join (pages : list page_text) :
  extract_text_from_pdf None = EmptyString
  /\ (In PageRaises pages -> extract_text_from_pdf (Some pages) = EmptyString)
  /\ (~ In PageRaises pages ->
      extract_text_from_pdf (Some pages) = py_strip (py_join double_nl (nonempty_page_texts pages)))
  /\ (~ In PageRaises pages -> nonempty_page_texts pages = [] ->
      extract_text_from_pdf (Some pages) = EmptyString).
Proof.
  unfold extract_text_from_pdf. rewrite collect_page_texts_spec.
  split; [reflexivity|]. split; [|split].
  - intros H. apply existsb_raises in H. now rewrite H.
  - intros H. destruct (existsb _ pages) eqn:E; [apply existsb_raises in E; contradiction|].
    reflexivity.
  - intros H Hn. destruct (existsb _ pages) eqn:E; [apply existsb_raises in E; contradiction|].
    now rewrite Hn.
Qed.

Lemma extract_text_strip_join_witness :
  let pages := [PageText " Summary"; PageNone; PageText "Skills "] in
  extract_text_from_pdf None = EmptyString
  /\ (In PageRaises pages -> extract_text_from_pdf (Some pages) = EmptyString)
  /\ (~ In PageRaises pages ->
      extract_text_from_pdf (Some pages) = py_strip (py_join double_nl (nonempty_page_texts pages)))
  /\ (~ In PageRaises pages -> nonempty_page_texts pages = [] ->
      extract_text_from_pdf (Some pages) = EmptyString).
Proof. exact (extract_text_strip_join [PageText " Summary"; PageNone; PageText "Skills "]). Defined.

(** ** [create_pdf_from_text] and [textwrap.wrap] *)


Lemma nonspace_app (a b : string) : nonspace (a ++ b) = nonspace a ++ nonspace b.
Proof.
  induction a as [|c a IH]; simpl; [reflexivity|].
  destruct (py_isspace c); simpl; now rewrite IH.
Qed.

Lemma nonspace_blank (s : string) : is_blank s = true -> nonspace s = EmptyString.
Proof.
  induction s as [|c s IH]; simpl; [reflexivity|].
  intros H. apply andb_true_iff in H as [Hc Hs]. rewrite Hc. auto.
Qed.

Lemma nonspace_spaces (k : nat) : nonspace (spaces k) = EmptyString.
Proof. induction k; simpl; auto. Qed.

Lemma tw_ws_isspace (c : ascii) : tw_ws c = true -> py_isspace c = true.
Proof.
  unfold tw_ws, py_isspace. intros H.
  apply orb_true_iff in H as [H|H].
  - apply andb_true_iff in H as [H1 H2].
    rewrite H1, H2. reflexivity.
  - apply Nat.eqb_eq in H. rewrite H. reflexivity.
Qed.

Lemma nonspace_translate (s : string) : nonspace (translate_ws s) = nonspace s.
Proof.
  induction s as [|c s IH]; simpl; [reflexivity|].
  destruct (tw_ws c) eqn:E.
  - rewrite (tw_ws_isspace c E). exact IH.
  - destruct (py_isspace c); simpl; now rewrite IH.
Qed.

Lemma nonspace_expand_tabs (col : nat) (s : string) :
  nonspace (expand_tabs_from col s) = nonspace s.
Proof.
  revert col. induction s as [|c s IH]; intros col; simpl; [reflexivity|].
  destruct (Nat.eqb (nat_of_ascii c) 9) eqn:E9.
  - rewrite nonspace_app, nonspace_spaces, IH. simpl.
    apply Nat.eqb_eq in E9.
    assert (Hc : py_isspace c = true) by (unfold py_isspace; rewrite E9; reflexivity).
    now rewrite Hc.
  - destruct (Nat.eqb (nat_of_ascii c) 10 || Nat.eqb (nat_of_ascii c) 13); simpl;
      destruct (py_isspace c); now rewrite IH.
Qed.

Lemma nonspace_munge (s : string) : nonspace (munge_whitespace s) = nonspace s.
Proof. unfold munge_whitespace. now rewrite nonspace_translate, nonspace_expand_tabs. Qed.

Lemma ws_run_len_le (l : list ascii) : ws_run_len l <= List.length l.
Proof.
  induction l as [|c l IH]; simpl; [lia|]. destruct (tw_ws c); lia.
Qed.

Lemma dash_run_le (l : list ascii) : fst (dash_run l) <= List.length l.
Proof.
  induction l as [|c l IH]; simpl; [lia|].
  destruct (Ascii.eqb c "-"); simpl; [|lia].
  destruct (dash_run l) as [k r]. simpl in *. lia.
Qed.

Lemma word_end_bounds (prev rest : list ascii) (n : nat) :
  n <= word_end prev rest n <= n + List.length rest.
Proof.
  revert prev n. induction rest as [|d r IH]; intros prev n.
  - change (word_end prev [] n) with n. lia.
  - change (word_end prev (d :: r) n)
      with (if hyphen_break prev (d :: r) then S n else
            if tw_ws d then n
            else if head_word_punct prev && em_dash_ahead (d :: r) then n
            else word_end (d :: prev) r (S n)).
    simpl List.length.
    destruct (hyphen_break prev (d :: r)); [lia|].
    destruct (tw_ws d); [lia|].
    destruct (head_word_punct prev && em_dash_ahead (d :: r)); [lia|].
    specialize (IH (d :: prev) (S n)). lia.
Qed.

(** Every match is non-empty and lies within the remaining text. *)
Lemma match_len_bounds (prev : list ascii) (c : ascii) (r : list ascii) :
  1 <= match_len prev (c :: r) <= S (List.length r).
Proof.
  unfold match_len. destruct (tw_ws c) eqn:Ec.
  - simpl. rewrite Ec. pose proof (ws_run_len_le r). lia.
  - destruct (head_word_punct prev && em_dash_ahead (c :: r)) eqn:Ee.
    + apply andb_true_iff in Ee as [_ Ee]. unfold em_dash_ahead in Ee.
      pose proof (dash_run_le (c :: r)) as Hle.
      destruct (dash_run (c :: r)) as [k rr]. simpl in *.
      apply andb_true_iff in Ee as [Ek _]. destruct k as [|[|k]]; try discriminate; lia.
    + pose proof (word_end_bounds (c :: prev) r 1). lia.
Qed.

Lemma split_from_cons (f : nat) (prev : list ascii) (c : ascii) (r : list ascii) :
  split_from (S f) prev (c :: r)
  = string_of_list_ascii (firstn (match_len prev (c :: r)) (c :: r))
    :: split_from f (rev (firstn (match_len prev (c :: r)) (c :: r)) ++ prev)%list
                    (skipn (match_len prev (c :: r)) (c :: r)).
Proof. reflexivity. Qed.

Lemma string_of_list_ascii_app (a b : list ascii) :
  string_of_list_ascii (a ++ b) = string_of_list_ascii a ++ string_of_list_ascii b.
Proof. induction a as [|c a IH]; simpl; [reflexivity|]. now rewrite IH. Qed.

Lemma concat_split_from (fuel : nat) (prev rest : list ascii) :
  List.length rest <= fuel -> concat_str (split_from fuel prev rest) = string_of_list_ascii rest.
Proof.
  revert prev rest. induction fuel as [|f IH]; intros prev rest H.
  - destruct rest; [reflexivity | simpl in H; lia].
  - destruct rest as [|c r]; [reflexivity|]. rewrite split_from_cons.
    pose proof (match_len_bounds prev c r) as Hb.
    remember (match_len prev (c :: r)) as n eqn:En.
    simpl concat_str. rewrite IH.
    + rewrite <- string_of_list_ascii_app, firstn_skipn. reflexivity.
    + rewrite length_skipn. change (List.length (c :: r)) with (S (List.length r)) in *. lia.
Qed.

Lemma split_from_nonempty (fuel : nat) (prev rest : list ascii) (x : string) :
  In x (split_from fuel prev rest) -> x <> EmptyString.
Proof.
  revert prev rest. induction fuel as [|f IH]; intros prev rest; [intros []|].
  destruct rest as [|c r]; [intros []|]. rewrite split_from_cons.
  intros [<-|H]; [|exact (IH _ _ H)].
  pose proof (match_len_bounds prev c r) as Hb.
  destruct (match_len prev (c :: r)) as [|k]; [lia|]. simpl. discriminate.
Qed.

Lemma concat_split_chunks (s : string) : concat_str (split_chunks s) = s.
Proof.
  unfold split_chunks. rewrite concat_split_from by lia.
  apply string_of_list_ascii_of_string.
Qed.

Lemma split_chunks_nonempty (s x : string) : In x (split_chunks s) -> x <> EmptyString.
Proof. apply split_from_nonempty. Qed.

Lemma concat_str_app (l1 l2 : list string) :
  concat_str (l1 ++ l2) = concat_str l1 ++ concat_str l2.
Proof.
  induction l1 as [|x l1 IH]; simpl; [reflexivity|].
  now rewrite IH, str_app_assoc.
Qed.

Lemma chunks_measure_app (l1 l2 : list string) :
  chunks_measure (l1 ++ l2) = chunks_measure l1 + chunks_measure l2.
Proof. induction l1 as [|x l1 IH]; simpl; [reflexivity | rewrite IH; lia]. Qed.

Lemma str_take_drop (n : nat) (s : string) : str_take n s ++ str_drop n s = s.
Proof.
  revert s. induction n as [|n IH]; intros [|c s]; simpl; try reflexivity.
  now rewrite IH.
Qed.

Lemma str_drop_length (n : nat) (s : string) :
  String.length (str_drop n s) = String.length s - n.
Proof.
  revert s. induction n as [|n IH]; intros [|c s]; simpl; try reflexivity; try apply IH.
Qed.

Lemma str_take_length (n : nat) (s : string) : String.length (str_take n s) <= n.
Proof.
  revert s. induction n as [|n IH]; intros [|c s]; simpl; try lia.
  specialize (IH s). lia.
Qed.

Lemma py_rfind_bound (c : ascii) (s : string) (k : nat) :
  py_rfind c s = Some k -> k < String.length s.
Proof.
  revert k. induction s as [|x s IH]; simpl; intros k H; [discriminate|].
  destruct (py_rfind c s) as [j|] eqn:E.
  - injection H as <-. specialize (IH j eq_refl). lia.
  - destruct (Ascii.eqb x c); [injection H as <-; lia | discriminate].
Qed.

Lemma take_fit_app (width cur_len : nat) (chunks l r : list string) :
  take_fit width cur_len chunks = (l, r) ->
  (l ++ r)%list = chunks
  /\ (l = [] -> forall c cs, chunks = c :: cs -> width < cur_len + String.length c).
Proof.
  revert cur_len l r. induction chunks as [|c cs IH]; simpl; intros cur_len l r H.
  - injection H as <- <-. split; [reflexivity | discriminate].
  - destruct (Nat.leb (cur_len + String.length c) width) eqn:E.
    + destruct (take_fit width (cur_len + String.length c) cs) as [l' r'] eqn:Ht.
      injection H as <- <-. split; [|discriminate].
      simpl. f_equal. apply (IH _ _ _ Ht).
    + injection H as <- <-. split; [reflexivity|].
      intros _ c' cs' Heq. injection Heq as <- <-. apply Nat.leb_gt in E. exact E.
Qed.

Lemma long_word_end_pos (space_left : nat) (chunk : string) :
  1 <= space_left -> 1 <= long_word_end space_left chunk.
Proof.
  intros H. unfold long_word_end.
  destruct (Nat.ltb space_left (String.length chunk)); [|exact H].
  destruct (py_rfind "-" (str_take space_left chunk)) as [h|]; [|exact H].
  destruct (_ && _); [lia | exact H].
Qed.

Lemma handle_long_word_spec (chunks cur_line : list string) (cur_len width : nat)
    (cur_line' chunks' : list string) :
  handle_long_word chunks cur_line cur_len width = (cur_line', chunks') ->
  concat_str cur_line' ++ concat_str chunks' = concat_str cur_line ++ concat_str chunks
  /\ chunks_measure chunks' <= chunks_measure chunks
  /\ (forall c cs, chunks = c :: cs -> cur_len = 0 -> 1 <= width -> width < String.length c ->
      chunks_measure chunks' < chunks_measure chunks).
Proof.
  intros H. destruct chunks as [|c rest]; simpl in H.
  - injection H as <- <-. split; [reflexivity | split; [lia | discriminate]].
  - injection H as <- <-.
    set (e := long_word_end (if Nat.ltb width 1 then 1 else width - cur_len) c).
    split; [|split].
    + rewrite concat_str_app. simpl. rewrite str_app_nil_r, <- str_app_assoc.
      rewrite (str_app_assoc (str_take e c)), str_take_drop. reflexivity.
    + simpl. rewrite str_drop_length. lia.
    + intros c' cs Heq Hlen Hw Hlong. injection Heq as <- <-. subst cur_len.
      assert (He : 1 <= e).
      { subst e. apply long_word_end_pos. destruct (Nat.ltb_spec width 1); lia. }
      simpl. rewrite str_drop_length. lia.
Qed.

Lemma rev_cons_split (l : list string) (x : string) (r : list string) :
  rev l = x :: r -> l = (rev r ++ [x])%list.
Proof. intros H. rewrite <- (rev_involutive l), H. reflexivity. Qed.

(** One pass keeps the non-whitespace characters and shrinks the pending
    chunks. *)
Lemma wrap_step_spec (width : nat) (lines chunks lines' chunks' : list string) :
  1 <= width -> chunks <> [] ->
  wrap_step width lines chunks = (lines', chunks') ->
  nonspace (concat_str lines' ++ concat_str chunks') = nonspace (concat_str lines ++ concat_str chunks)
  /\ chunks_measure chunks' < chunks_measure chunks.
Proof.
  intros Hw Hne H. unfold wrap_step in H.
  destruct chunks as [|c0 cs0]; [contradiction|].
  (* the dropped leading blank chunk *)
  assert (H1 : exists chunks1,
             (if is_blank c0 && negb (Nat.eqb (List.length lines) 0) then cs0 else c0 :: cs0)
             = chunks1
             /\ nonspace (concat_str (c0 :: cs0)) = nonspace (concat_str chunks1)
             /\ chunks_measure chunks1 <= chunks_measure (c0 :: cs0)
             /\ (chunks1 = c0 :: cs0 \/ chunks_measure chunks1 < chunks_measure (c0 :: cs0))).
  { destruct (is_blank c0 && negb (Nat.eqb (List.length lines) 0)) eqn:Eb.
    - apply andb_true_iff in Eb as [Eb _].
      exists cs0. split; [reflexivity|]. simpl.
      rewrite nonspace_app, (nonspace_blank _ Eb). split; [reflexivity|]. split; [lia|right; lia].
    - exists (c0 :: cs0). split; [reflexivity|]. split; [reflexivity|]. split; [lia|left; reflexivity]. }
  destruct H1 as (chunks1 & E1 & N1 & M1 & S1). rewrite E1 in H.
  destruct (take_fit width 0 chunks1) as [cur_line chunks2] eqn:Ht.
  apply take_fit_app in Ht as [Happ Hempty].
  set (cur_len := String.length (concat_str cur_line)) in H.
  destruct (match chunks2 with
            | c :: _ => if Nat.ltb width (String.length c)
                        then handle_long_word chunks2 cur_line cur_len width
                        else (cur_line, chunks2)
            | [] => (cur_line, chunks2)
            end) as [cur_line' chunks3] eqn:Eh.
  assert (Hh : concat_str cur_line' ++ concat_str chunks3 = concat_str cur_line ++ concat_str chunks2
               /\ chunks_measure chunks3 <= chunks_measure chunks2
               /\ (cur_line = [] -> chunks1 <> [] -> chunks_measure chunks3 < chunks_measure chunks2)).
  { destruct chunks2 as [|c cs].
    - injection Eh as <- <-. split; [reflexivity | split; [lia|]].
      intros -> Hne1. simpl in Happ. congruence.
    - destruct (Nat.ltb_spec width (String.length c)) as [Hlt|Hge].
      + destruct (handle_long_word_spec _ _ _ _ _ _ Eh) as (Hc & Hm & Hs).
        split; [exact Hc | split; [exact Hm|]].
        intros Hcl _. apply (Hs c cs eq_refl); [subst cur_len; rewrite Hcl; reflexivity | exact Hw | exact Hlt].
      + injection Eh as <- <-. split; [reflexivity | split; [lia|]].
        intros Hcl _. simpl in Happ. subst cur_line. simpl in Happ.
        specialize (Hempty eq_refl c cs (eq_sym Happ)). lia. }
  destruct Hh as (Hc & Hm & Hs).
  (* the dropped trailing blank chunk *)
  assert (H3 : exists cur_line'',
             (match rev cur_line' with
              | last :: _ => if is_blank last then removelast cur_line' else cur_line'
              | [] => cur_line'
              end) = cur_line''
             /\ nonspace (concat_str cur_line') = nonspace (concat_str cur_line'')).
  { destruct (rev cur_line') as [|x r] eqn:Er.
    - eexists; split; reflexivity.
    - destruct (is_blank x) eqn:Ex.
      + eexists; split; [reflexivity|].
        apply rev_cons_split in Er. rewrite Er, removelast_last, concat_str_app, nonspace_app.
        simpl. rewrite str_app_nil_r, (nonspace_blank _ Ex), str_app_nil_r. reflexivity.
      + eexists; split; reflexivity. }
  destruct H3 as (cur_line'' & E3 & N3). rewrite E3 in H.
  assert (Hlines : concat_str (match cur_line'' with
                               | [] => lines
                               | _ => (lines ++ [concat_str cur_line''])%list
                               end) = concat_str lines ++ concat_str cur_line'').
  { destruct cur_line''; [simpl; now rewrite str_app_nil_r|].
    rewrite concat_str_app. simpl. now rewrite str_app_nil_r. }
  injection H as <- <-. split.
  - rewrite Hlines, <- str_app_assoc, nonspace_app, (nonspace_app (concat_str lines)).
    f_equal.
    rewrite nonspace_app, <- N3, <- nonspace_app, Hc, <- concat_str_app, Happ.
    symmetry. exact N1.
  - rewrite <- Happ, chunks_measure_app in *.
    destruct cur_line as [|x l].
    + simpl in *. destruct S1 as [S1|S1].
      * assert (chunks_measure chunks3 < chunks_measure chunks2) by (apply Hs; [reflexivity | congruence]).
        lia.
      * lia.
    + simpl in *. lia.
Qed.

Lemma wrap_loop_nonspace (width fuel : nat) (lines chunks : list string) :
  1 <= width -> chunks_measure chunks < fuel ->
  nonspace (concat_str (wrap_loop width fuel lines chunks))
  = nonspace (concat_str lines ++ concat_str chunks).
Proof.
  intros Hw. revert lines chunks.
  induction fuel as [|f IH]; intros lines chunks Hf; [lia|]. simpl.
  destruct chunks as [|c cs]; [simpl; now rewrite str_app_nil_r|].
  destruct (wrap_step width lines (c :: cs)) as [lines' chunks'] eqn:E.
  destruct (wrap_step_spec width lines (c :: cs) lines' chunks' Hw ltac:(congruence) E) as [Hn Hm].
  rewrite IH by lia. exact Hn.
Qed.

Lemma textwrap_wrap_nonspace (text : string) (width : nat) :
  1 <= width -> nonspace (concat_str (textwrap_wrap text width)) = nonspace text.
Proof.
  intros Hw. unfold textwrap_wrap.
  rewrite wrap_loop_nonspace by (auto || lia). simpl.
  now rewrite concat_split_chunks, nonspace_munge.
Qed.

Lemma split_nl_nonnil (s : string) : split_nl s <> [].
Proof.
  destruct s as [|c s]; simpl; [discriminate|].
  destruct (split_nl s) as [|l ls]; [discriminate|].
  destruct (Nat.eqb (nat_of_ascii c) 10); discriminate.
Qed.

Lemma py_join_cons_char (sep : string) (c : ascii) (l : string) (ls : list string) :
  py_join sep (String c l :: ls) = String c (py_join sep (l :: ls)).
Proof. destruct ls; reflexivity. Qed.

(** The lines of [text.split("\n")] rebuild the text. *)
Lemma split_nl_join (s : string) : py_join nl (split_nl s) = s.
Proof.
  induction s as [|c s IH]; simpl; [reflexivity|].
  destruct (split_nl s) as [|l ls] eqn:E; [now apply split_nl_nonnil in E|].
  destruct (Nat.eqb (nat_of_ascii c) 10) eqn:Ec.
  - apply Nat.eqb_eq in Ec.
    assert (Hc : c = chr 10) by (rewrite <- Ec; unfold chr; now rewrite ascii_nat_embedding).
    subst c. change (py_join nl (EmptyString :: l :: ls)) with (nl ++ py_join nl (l :: ls)).
    now rewrite IH.
  - rewrite py_join_cons_char. now rewrite IH.
Qed.

(** C10, as stated, fails: a tab inside a line is expanded to spaces by
    [textwrap.wrap], so the emitted segment is not the line's content. *)
Lemma pdf_line_tab_counterexample :
  line_ops ("Python" ++ String (chr 9) "SQL") = [MultiCell 0 6 "Python  SQL"]
  /\ concat_str (textwrap_wrap ("Python" ++ String (chr 9) "SQL") wrap_width)
     <> "Python" ++ String (chr 9) "SQL".
Proof. vm_compute. split; [reflexivity | discriminate]. Qed.

(** C10 (amended): the document is the title block followed, for each line
    of [text.split("\n")], by one paragraph row per segment of
    [textwrap.wrap(line, 95)], or a blank gap when there is none (as for
    an empty line); the segments keep the line's non-whitespace
    characters in order, whitespace being expanded, replaced or dropped. *)
Theorem pdf_lines_keep_nonspace (text title : string) :
  py_join nl (split_nl text) = text
  /\ create_pdf_from_text text title
     = ([SetAutoPageBreak true 15; AddPage; SetFont "Arial" EmptyString 12;
         SetFont "Arial" "B" 14; Cell 0 10 title true "C"; Ln 4;
         SetFont "Arial" EmptyString 11] ++ flat_map line_ops (split_nl text))%list
  /\ (forall line, In line (split_nl text) ->
        nonspace (concat_str (textwrap_wrap line wrap_width)) = nonspace line
        /\ line_ops line = match textwrap_wrap line wrap_width with
                           | [] => [Ln 5]
                           | segs => map (MultiCell 0 6) segs
                           end)
  /\ line_ops EmptyString = [Ln 5].
Proof.
  split; [apply split_nl_join|]. split; [reflexivity|]. split; [|reflexivity].
  intros line _. split.
  - apply textwrap_wrap_nonspace. unfold wrap_width. lia.
  - unfold line_ops. destruct (textwrap_wrap line wrap_width); reflexivity.
Qed.

Lemma pdf_lines_keep_nonspace_witness :
  let text := "Summary: backend engineer" ++ nl ++ nl ++ "Skills:" ++ String (chr 9) "Go, SQL" in
  py_join nl (split_nl text) = text
  /\ create_pdf_from_text text "Improved Resume - Backend Engineer"
     = ([SetAutoPageBreak true 15; AddPage; SetFont "Arial" EmptyString 12;
         SetFont "Arial" "B" 14; Cell 0 10 "Improved Resume - Backend Engineer" true "C"; Ln 4;
         SetFont "Arial" EmptyString 11] ++ flat_map line_ops (split_nl text))%list
  /\ (forall line, In line (split_nl text) ->
        nonspace (concat_str (textwrap_wrap line wrap_width)) = nonspace line
        /\ line_ops line = match textwrap_wrap line wrap_width with
                           | [] => [Ln 5]
                           | segs => map (MultiCell 0 6) segs
                           end)
  /\ line_ops EmptyString = [Ln 5].
Proof.
  exact (pdf_lines_keep_nonspace
           ("Summary: backend engineer" ++ nl ++ nl ++ "Skills:" ++ String (chr 9) "Go, SQL")
           "Improved Resume - Backend Engineer").
Defined.

(** ** Test vectors

    The embedding of [textwrap.wrap] and the subset decoder on inputs whose
    results under CPython 3.11 are [textwrap.wrap(t, width=95)] and
    [json.loads(t)] respectively; [split_chunks] on inputs whose results
    are [TextWrapper()._split(t)]. *)

Example textwrap_trailing_space : textwrap_wrap "a " 95 = ["a"].
Proof. vm_compute. reflexivity. Qed.
Example textwrap_tab : textwrap_wrap ("Python" ++ String (chr 9) "SQL") 95 = ["Python  SQL"].
Proof. vm_compute. reflexivity. Qed.
Example textwrap_leading_space : textwrap_wrap "  lead" 95 = ["  lead"].
Proof. vm_compute. reflexivity. Qed.
Example textwrap_blank : textwrap_wrap "   " 95 = [].
Proof. vm_compute. reflexivity. Qed.
Example textwrap_info_separator : textwrap_wrap (String " " (String (chr 28) EmptyString)) 95 = [" "].
Proof. vm_compute. reflexivity. Qed.
Example textwrap_long_word : textwrap_wrap (rep 200 "x") 95 = [rep 95 "x"; rep 95 "x"; rep 10 "x"].
Proof. vm_compute. reflexivity. Qed.
Example textwrap_words :
  textwrap_wrap (rep 29 "word " ++ "word") 95 = [rep 18 "word " ++ "word"; rep 10 "word " ++ "word"].
Proof. vm_compute. reflexivity. Qed.
Example textwrap_long_blank : textwrap_wrap (rep 100 " " ++ "z") 95 = ["     z"].
Proof. vm_compute. reflexivity. Qed.
Example textwrap_break_at_space : textwrap_wrap ("aaa bbb" ++ rep 93 " " ++ "c") 95 = ["aaa bbb"; "c"].
Proof. vm_compute. reflexivity. Qed.
Example textwrap_hyphen_break :
  textwrap_wrap (rep 88 "x" ++ " well-known") 95 = [rep 88 "x" ++ " well-"; "known"].
Proof. vm_compute. reflexivity. Qed.
Example textwrap_hyphenated_next_line :
  textwrap_wrap (rep 90 "a" ++ " state-of-the-art design") 95
  = [rep 90 "a"; "state-of-the-art design"].
Proof. vm_compute. reflexivity. Qed.
Example textwrap_long_word_hyphen :
  textwrap_wrap (rep 80 "x" ++ "-" ++ rep 30 "y") 95 = [rep 80 "x" ++ "-"; rep 30 "y"].
Proof. vm_compute. reflexivity. Qed.
Example textwrap_double_dash :
  textwrap_wrap (rep 93 "a" ++ " re--run") 95 = [rep 93 "a"; "re--run"].
Proof. vm_compute. reflexivity. Qed.
Example split_hyphens_and_dashes :
  split_chunks "Hello there -- you goof-ball, use the -b option!"
  = ["Hello"; " "; "there"; " "; "--"; " "; "you"; " "; "goof-"; "ball,"; " "; "use"; " ";
     "the"; " "; "-b"; " "; "option!"].
Proof. vm_compute. reflexivity. Qed.
Example split_em_dash_and_compounds :
  split_chunks "Built APIs--fast, e-mail co-op re-run 3-D A-b-c --x"
  = ["Built"; " "; "APIs"; "--"; "fast,"; " "; "e-mail"; " "; "co-"; "op"; " "; "re-"; "run";
     " "; "3-D"; " "; "A-b-c"; " "; "--x"].
Proof. vm_compute. reflexivity. Qed.

Example loads_nested :
  json_loads_subset ("  {" ++ qt "skills" ++ ": [1, -2, " ++ qt "a" ++ "], " ++ qt "x" ++ ":{}} ")
  = Some (JObj [("skills", JArr [JNum 1; JNum (-2); JStr "a"]); ("x", JObj [])]).
Proof. vm_compute. reflexivity. Qed.
Example loads_two_objects : json_loads_subset "{} {}" = None.
Proof. vm_compute. reflexivity. Qed.
Example loads_empty : json_loads_subset EmptyString = None.
Proof. vm_compute. reflexivity. Qed.
Example loads_leading_zero : json_loads_subset "01" = None.
Proof. vm_compute. reflexivity. Qed.

Example extract_pages :
  extract_text_from_pdf (Some [PageText " A"; PageNone; PageText EmptyString; PageText "B  "])
  = "A" ++ double_nl ++ "B".
Proof. vm_compute. reflexivity. Qed.

(** * Further properties of the code *)

(** ** [parse_json_from_model] *)

Lemma py_find_app_hit (c : ascii) (a b : string) (i : nat) :
  py_find c a = Some i -> py_find c (a ++ b) = Some i.
Proof.
  revert i. induction a as [|x a IH]; simpl; intros i H; [discriminate|].
  destruct (Ascii.eqb x c); [exact H|].
  destruct (py_find c a) as [k|]; [|discriminate].
  injection H as <-. now rewrite (IH k eq_refl).
Qed.

Lemma py_rfind_app_miss (c : ascii) (a b : string) :
  py_rfind c b = None -> py_rfind c (a ++ b) = py_rfind c a.
Proof.
  intros H. induction a as [|x a IH]; simpl; [exact H|]. now rewrite IH.
Qed.

Lemma py_rfind_app_hit (c : ascii) (a b : string) (j : nat) :
  py_rfind c b = Some j -> py_rfind c (a ++ b) = Some (String.length a + j).
Proof.
  intros H. induction a as [|x a IH]; simpl; [exact H|]. now rewrite IH.
Qed.

Lemma substring_app_l (a x : string) (i n : nat) :
  substring (String.length a + i) n (a ++ x) = substring i n x.
Proof. induction a as [|y a IH]; simpl; [reflexivity | exact IH]. Qed.

Lemma substring_app_r (t u : string) (i n : nat) :
  i + n <= String.length t -> substring i n (t ++ u) = substring i n t.
Proof.
  revert i n. induction t as [|c t IH]; intros i n H; simpl in H.
  - assert (i = 0) by lia. assert (n = 0) by lia. subst. simpl. now destruct u.
  - destruct i as [|i]; simpl.
    + destruct n as [|n]; [now destruct (t ++ u), t|].
      f_equal. apply IH. lia.
    + apply IH. lia.
Qed.

(** The braces of the reply select the same slice whatever text without
    [{] comes before it and whatever text without [}] comes after it. *)
Theorem parse_json_context_free (loads : string -> option json)
    (pre t post : string) (i j : nat) :
  py_find "{" pre = None -> py_rfind "}" post = None ->
  py_find "{" t = Some i -> py_rfind "}" t = Some j ->
  parse_json_from_model loads (pre ++ t ++ post) = parse_json_from_model loads t.
Proof.
  intros Hpre Hpost Hi Hj. unfold parse_json_from_model.
  rewrite (py_find_app_miss _ _ _ Hpre), (py_find_app_hit _ _ _ _ Hi). simpl option_map.
  rewrite str_app_assoc, (py_rfind_app_miss _ _ _ Hpost), (py_rfind_app_hit _ _ _ _ Hj).
  rewrite Hi, Hj. unfold py_slice.
  pose proof (py_rfind_bound _ _ _ Hj) as Hb.
  destruct (Nat.ltb_spec i (j + 1)) as [Hlt|Hge];
    destruct (Nat.ltb_spec (String.length pre + i) (String.length pre + j + 1)); try lia.
  - replace (String.length pre + j + 1 - (String.length pre + i)) with (j + 1 - i) by lia.
    rewrite <- str_app_assoc, substring_app_l, substring_app_r by lia. reflexivity.
  - reflexivity.
Qed.

Lemma parse_json_context_free_witness :
  parse_json_from_model json_loads_subset ("Sure, here it is: " ++ "{} ok {}" ++ " Thanks.")
  = parse_json_from_model json_loads_subset "{} ok {}".
Proof. apply (parse_json_context_free _ _ _ _ 0 7); reflexivity. Defined.

(** A value returned by the parser is a decoding of a text starting with
    [{]: with [json.loads], a dict. *)
Lemma parse_json_object_aux (loads : string -> option json) :
  loads EmptyString = None ->
  (forall s v, loads (String "{" s) = Some v -> exists m, v = JObj m) ->
  forall text v, parse_json_from_model loads text = Some v -> exists m, v = JObj m.
Proof.
  intros Hempty Hobj text v. unfold parse_json_from_model.
  destruct (py_find "{" text) as [start|] eqn:Hf; [|discriminate].
  destruct (py_rfind "}" text) as [end_|]; [|discriminate].
  unfold py_slice. destruct (Nat.ltb_spec start (end_ + 1)).
  - replace (end_ + 1 - start) with (S (end_ - start)) by lia.
    destruct (py_find_substring_head _ _ _ (end_ - start) Hf) as [r ->]. apply Hobj.
  - rewrite Hempty. discriminate.
Qed.

Lemma json_loads_subset_object (s : string) (v : json) :
  json_loads_subset (String "{" s) = Some v -> exists m, v = JObj m.
Proof.
  unfold json_loads_subset.
  replace (2 * String.length (String "{" s) + 2) with (S (S (2 * String.length s + 2)))
    by (simpl; lia).
  simpl p_value.
  destruct (skip_ws s) as [|c r0]; [discriminate|].
  destruct (Ascii.eqb c "}"); [destruct (skip_ws r0); intros H; [injection H as <-; eauto | discriminate]|].
  match goal with
  | |- context [p_members ?f ?a ?x] => destruct (p_members f a x) as [[w r]|] eqn:E
  end; [|discriminate].
  apply p_members_object in E as [m ->].
  destruct (skip_ws r); intros H; [injection H as <-; eauto | discriminate].
Qed.

Theorem parse_json_returns_object (loads : string -> option json) :
  loads EmptyString = None ->
  (forall s v, loads (String "{" s) = Some v -> exists m, v = JObj m) ->
  forall text v, parse_json_from_model loads text = Some v -> exists m, v = JObj m.
Proof. exact (parse_json_object_aux loads). Qed.

Lemma parse_json_returns_object_witness :
  exists m, JObj [("overall", JNum 7)] = JObj m.
Proof.
  apply (parse_json_returns_object json_loads_subset eq_refl json_loads_subset_object
           ("Score: {" ++ qt "overall" ++ ": 7}")).
  vm_compute. reflexivity.
Defined.

(** ** The Analyze handler *)

(** With [json.loads] turning a text that starts with [{] into a dict,
    every result the handler displays is a dict: the parsed reply or the
    fallback. *)
Theorem analyze_result_is_object (loads : string -> option json)
    (provider : string -> call_result) (inp : analyze_input) (st : session) :
  loads EmptyString = None ->
  (forall s v, loads (String "{" s) = Some v -> exists m, v = JObj m) ->
  forall r, out_result (analyze loads provider inp st) = Some r -> exists m, r = JObj m.
Proof.
  intros Hempty Hobj r. unfold analyze, generate_feedback.
  destruct (negb (str_truthy (resume_text inp)) || negb (str_truthy (job_role inp)));
    [discriminate|].
  destruct (use_mock inp || negb (key_truthy (api_key inp))).
  - simpl. intros H. injection H as <-. eexists. reflexivity.
  - destruct (provider _) as [raw|msg].
    + destruct (parse_json_from_model loads raw) as [v|] eqn:Hp.
      * destruct (py_truthy v); simpl; intros H; injection H as <-;
          [exact (parse_json_object_aux loads Hempty Hobj raw v Hp) | eexists; reflexivity].
      * simpl. intros H. injection H as <-. eexists. reflexivity.
    + simpl. intros H. injection H as <-. eexists. reflexivity.
Qed.

Lemma analyze_result_is_object_witness :
  exists m, JObj [("skills", JArr [JStr "Go"])] = JObj m.
Proof.
  apply (analyze_result_is_object json_loads_subset
           (fun _ => CallOk ("```json {" ++ qt "skills" ++ ": [" ++ qt "Go" ++ "]} ```"))
           (live_input "Experienced engineer." "Backend Engineer" EmptyString) None
           eq_refl json_loads_subset_object).
  vm_compute. reflexivity.
Defined.

(** On the live path, a reply whose parsed value is truthy is displayed
    as it is, without any check of its keys. *)
Theorem analyze_truthy_reply_shown (loads : string -> option json)
    (provider : string -> call_result) (inp : analyze_input) (st : session)
    (raw : string) (v : json) :
  resume_text inp <> EmptyString -> job_role inp <> EmptyString ->
  use_mock inp = false -> key_truthy (api_key inp) = true ->
  provider (generate_prompt_for_llm (resume_text inp) (job_role inp) (job_desc inp)) = CallOk raw ->
  parse_json_from_model loads raw = Some v -> py_truthy v = true ->
  out_result (analyze loads provider inp st) = Some v.
Proof.
  intros Hr Hj Hm Hk Hp Hv Ht. apply str_truthy_nonempty in Hr, Hj.
  unfold analyze, generate_feedback. rewrite Hr, Hj, Hm, Hk, Hp, Hv, Ht. reflexivity.
Qed.

Lemma analyze_truthy_reply_shown_witness :
  out_result (analyze json_loads_subset (fun _ => CallOk ("{" ++ qt "skills" ++ ": 3}"))
                (live_input "Experienced engineer." "Backend Engineer" EmptyString) None)
  = Some (JObj [("skills", JNum 3)]).
Proof.
  apply (analyze_truthy_reply_shown _ _ _ _ ("{" ++ qt "skills" ++ ": 3}"));
    try discriminate; vm_compute; reflexivity.
Defined.

(** The provider is only called on the live path with valid inputs, and
    only with the prompt built from the three inputs. *)
Theorem analyze_provider_call_prompt (loads : string -> option json)
    (provider : string -> call_result) (inp : analyze_input) (st : session) (p : string) :
  In (EvProviderCall p) (out_events (analyze loads provider inp st)) ->
  resume_text inp <> EmptyString /\ job_role inp <> EmptyString
  /\ use_mock inp = false /\ key_truthy (api_key inp) = true
  /\ p = generate_prompt_for_llm (resume_text inp) (job_role inp) (job_desc inp).
Proof.
  unfold analyze, generate_feedback.
  destruct (str_truthy (resume_text inp)) eqn:Hr; destruct (str_truthy (job_role inp)) eqn:Hj;
    simpl; try (intros [H|[]]; discriminate).
  destruct (use_mock inp) eqn:Hm; destruct (key_truthy (api_key inp)) eqn:Hk;
    simpl; try (intros [H|[]]; discriminate).
  assert (Hr' : resume_text inp <> EmptyString) by (intros E; rewrite E in Hr; discriminate).
  assert (Hj' : job_role inp <> EmptyString) by (intros E; rewrite E in Hj; discriminate).
  destruct (provider _) as [raw|msg]; simpl.
  - intros [H|H]; [injection H as <-; tauto|].
    destruct (show_raw_model inp); simpl in H; [destruct H as [H|[]]|destruct H]; discriminate.
  - intros [H|[H|[]]]; [injection H as <-; tauto | discriminate].
Qed.

Lemma analyze_provider_call_prompt_witness :
  let inp := live_input "Experienced engineer." "Backend Engineer" EmptyString in
  generate_prompt_for_llm "Experienced engineer." "Backend Engineer" EmptyString
  = generate_prompt_for_llm (resume_text inp) (job_role inp) (job_desc inp).
Proof.
  intros inp.
  refine (proj2 (proj2 (proj2 (proj2
    (analyze_provider_call_prompt json_loads_subset (fun _ => CallRaise "timeout") inp None
       (generate_prompt_for_llm "Experienced engineer." "Backend Engineer" EmptyString) _))))).
  simpl. left. reflexivity.
Defined.

(** The raw model output is displayed exactly when the debug checkbox is
    on, the inputs are valid, the live path is taken and the call returned
    that text. *)
Theorem analyze_raw_output_shown (loads : string -> option json)
    (provider : string -> call_result) (inp : analyze_input) (st : session) (raw : string) :
  In (EvRawOutput raw) (out_events (analyze loads provider inp st))
  <-> (resume_text inp <> EmptyString /\ job_role inp <> EmptyString
       /\ use_mock inp = false /\ key_truthy (api_key inp) = true
       /\ show_raw_model inp = true
       /\ provider (generate_prompt_for_llm (resume_text inp) (job_role inp) (job_desc inp))
          = CallOk raw).
Proof.
  unfold analyze, generate_feedback.
  destruct (str_truthy (resume_text inp)) eqn:Hr.
  2:{ simpl. split; [intros [H|[]]; discriminate|].
      intros [E _]. apply str_truthy_nonempty in E. congruence. }
  destruct (str_truthy (job_role inp)) eqn:Hj.
  2:{ simpl. split; [intros [H|[]]; discriminate|].
      intros [_ [E _]]. apply str_truthy_nonempty in E. congruence. }
  assert (Hr' : resume_text inp <> EmptyString) by (intros E; rewrite E in Hr; discriminate).
  assert (Hj' : job_role inp <> EmptyString) by (intros E; rewrite E in Hj; discriminate).
  simpl. destruct (use_mock inp) eqn:Hm; simpl.
  { split; [intros [H|[]]; discriminate | intros (_ & _ & E & _); discriminate]. }
  destruct (key_truthy (api_key inp)) eqn:Hk; simpl.
  2:{ split; [intros [H|[]]; discriminate | intros (_ & _ & _ & E & _); discriminate]. }
  destruct (provider _) as [r|msg] eqn:Hp; simpl.
  - destruct (show_raw_model inp) eqn:Hs; simpl.
    + split.
      * intros [H|[H|[]]]; [discriminate|]. injection H as ->. tauto.
      * intros (_ & _ & _ & _ & _ & E). injection E as ->. auto.
    + split; [intros [H|[]]; discriminate | intros (_ & _ & _ & _ & E & _); discriminate].
  - split; [intros [H|[H|[]]]; discriminate | intros (_ & _ & _ & _ & _ & E); discriminate].
Qed.

(** ** Rendering the results *)

(** A result object lacking the four displayed keys renders without
    raising: each [.get] falls back to its default. *)
Theorem render_ok_missing_keys (m : list (string * json)) :
  dict_get m "skills" = None -> dict_get m "improvements" = None ->
  dict_get m "tailored_examples" = None -> dict_get m "scoring" = None ->
  render_ok (JObj m) = true.
Proof.
  intros H1 H2 H3 H4. unfold render_ok, dict_get_default. now rewrite H1, H2, H3, H4.
Qed.

Lemma render_ok_missing_keys_witness :
  render_ok (JObj [("improved_resume", JStr "Jane Doe")]) = true.
Proof. apply render_ok_missing_keys; reflexivity. Defined.

(** ** [textwrap.wrap] as used by [create_pdf_from_text] *)

Lemma take_fit_bound (w k : nat) (cs l r : list string) :
  take_fit w k cs = (l, r) -> k <= w -> k + String.length (concat_str l) <= w.
Proof.
  revert k l r. induction cs as [|c cs IH]; simpl; intros k l r H Hk.
  - injection H as <- <-. simpl. lia.
  - destruct (Nat.leb_spec (k + String.length c) w) as [Hle|Hgt].
    + destruct (take_fit w (k + String.length c) cs) as [l' r'] eqn:E.
      injection H as <- <-. simpl. rewrite str_app_length.
      specialize (IH _ _ _ E Hle). lia.
    + injection H as <- <-. simpl. lia.
Qed.

Lemma long_word_end_le (space_left : nat) (chunk : string) :
  long_word_end space_left chunk <= space_left.
Proof.
  unfold long_word_end.
  destruct (Nat.ltb space_left (String.length chunk)); [|lia].
  destruct (py_rfind "-" (str_take space_left chunk)) as [h|] eqn:E; [|lia].
  destruct (_ && _); [|lia].
  apply py_rfind_bound in E. pose proof (str_take_length space_left chunk). lia.
Qed.

Lemma concat_removelast_le (l : list string) :
  String.length (concat_str (removelast l)) <= String.length (concat_str l).
Proof.
  induction l as [|x l IH]; [simpl; lia|].
  destruct l as [|y l].
  - simpl. lia.
  - change (removelast (x :: y :: l)) with (x :: removelast (y :: l)).
    change (concat_str (x :: removelast (y :: l))) with (x ++ concat_str (removelast (y :: l))).
    change (concat_str (x :: y :: l)) with (x ++ concat_str (y :: l)).
    rewrite !str_app_length. lia.
Qed.

(** A pass adds at most one line, of at most [width] characters. *)
Lemma wrap_step_bound (width : nat) (lines chunks lines' chunks' : list string) :
  1 <= width -> wrap_step width lines chunks = (lines', chunks') ->
  forall seg, In seg lines' -> In seg lines \/ String.length seg <= width.
Proof.
  intros Hw H. unfold wrap_step in H.
  match type of H with
  | context [take_fit width 0 ?x] => destruct (take_fit width 0 x) as [cur_line chunks2] eqn:Ht
  end.
  pose proof (take_fit_bound _ _ _ _ _ Ht (Nat.le_0_l width)) as Hb. simpl in Hb.
  set (cur_len := String.length (concat_str cur_line)) in H.
  destruct (match chunks2 with
            | c :: _ => if Nat.ltb width (String.length c)
                        then handle_long_word chunks2 cur_line cur_len width
                        else (cur_line, chunks2)
            | [] => (cur_line, chunks2)
            end) as [cur_line' chunks3] eqn:Eh.
  assert (Hc : String.length (concat_str cur_line') <= width).
  { destruct chunks2 as [|c cs]; [injection Eh as <- <-; exact Hb|].
    destruct (Nat.ltb width (String.length c)); [|injection Eh as <- <-; exact Hb].
    unfold handle_long_word in Eh. injection Eh as <- <-.
    destruct (Nat.ltb_spec width 1); [lia|].
    rewrite concat_str_app. simpl. rewrite !str_app_length. simpl.
    pose proof (long_word_end_le (width - cur_len) c).
    pose proof (str_take_length (long_word_end (width - cur_len) c) c).
    subst cur_len. lia. }
  assert (H3 : exists cur_line'',
             (match rev cur_line' with
              | last :: _ => if is_blank last then removelast cur_line' else cur_line'
              | [] => cur_line'
              end) = cur_line''
             /\ String.length (concat_str cur_line'') <= width).
  { destruct (rev cur_line') as [|x r]; [eauto|].
    destruct (is_blank x); [|eauto].
    eexists; split; [reflexivity|]. pose proof (concat_removelast_le cur_line'). lia. }
  destruct H3 as (cur_line'' & E3 & Hl). rewrite E3 in H.
  destruct cur_line'' as [|x r]; injection H as <- <-; intros seg Hin; [now left|].
  apply in_app_or in Hin as [Hin|[<-|[]]]; [now left | now right].
Qed.

Lemma wrap_loop_bound (width fuel : nat) (lines chunks : list string) :
  1 <= width -> (forall seg, In seg lines -> String.length seg <= width) ->
  forall seg, In seg (wrap_loop width fuel lines chunks) -> String.length seg <= width.
Proof.
  intros Hw. revert lines chunks.
  induction fuel as [|f IH]; intros lines chunks Hl; simpl; [exact Hl|].
  destruct chunks as [|c cs]; [exact Hl|].
  destruct (wrap_step width lines (c :: cs)) as [lines' chunks'] eqn:E.
  apply IH. intros seg Hin.
  destruct (wrap_step_bound _ _ _ _ _ Hw E seg Hin); auto.
Qed.

Lemma textwrap_wrap_le (text : string) (width : nat) (seg : string) :
  1 <= width -> In seg (textwrap_wrap text width) -> String.length seg <= width.
Proof.
  intros Hw. unfold textwrap_wrap. apply wrap_loop_bound; [exact Hw|]. intros _ [].
Qed.

(** Every segment [textwrap.wrap] returns fits in the width: long words
    are cut, never left overlong. *)
Theorem textwrap_wrap_width (text : string) (width : nat) (seg : string) :
  1 <= width -> In seg (textwrap_wrap text width) -> String.length seg <= width.
Proof. exact (textwrap_wrap_le text width seg). Qed.

Lemma textwrap_wrap_width_witness :
  1 <= 4 /\ String.length "abcd" <= 4.
Proof.
  split; [lia|].
  apply (textwrap_wrap_width "abcdefgh ij" 4); [lia|]. vm_compute. left. reflexivity.
Defined.

(** Every row [create_pdf_from_text] writes with [multi_cell] has at most
    95 characters. *)
Theorem create_pdf_rows_fit (text title : string) (w h : nat) (s : string) :
  In (MultiCell w h s) (create_pdf_from_text text title) -> String.length s <= wrap_width.
Proof.
  unfold create_pdf_from_text. intros Hin.
  apply in_app_or in Hin as [Hin|Hin].
  { simpl in Hin. repeat (destruct Hin as [Hin|Hin]; [discriminate|]). destruct Hin. }
  apply in_flat_map in Hin as (line & _ & Hin). unfold line_ops in Hin.
  apply in_app_or in Hin as [Hin|Hin].
  - destruct (textwrap_wrap line wrap_width); simpl in Hin;
      [destruct Hin as [Hin|[]]; discriminate | destruct Hin].
  - apply in_map_iff in Hin as (seg & E & Hseg). injection E as _ _ <-.
    apply (textwrap_wrap_le line); [unfold wrap_width; lia | exact Hseg].
Qed.

Lemma create_pdf_rows_fit_witness :
  String.length "Jane Doe" <= wrap_width.
Proof.
  apply (create_pdf_rows_fit ("Jane Doe" ++ nl ++ "Engineer") "Improved Resume - SWE" 0 6).
  vm_compute. right. right. right. right. right. right. right. left. reflexivity.
Defined.

Lemma expand_tabs_plain (col : nat) (s : string) :
  plain_line s = true -> expand_tabs_from col s = s.
Proof.
  revert col. induction s as [|c s IH]; intros col H; [reflexivity|].
  unfold plain_line in H. simpl in H. apply andb_true_iff in H as [Hc Hs].
  simpl. destruct (Nat.eqb_spec (nat_of_ascii c) 9) as [E9|E9].
  - destruct (Ascii.eqb_spec c " ") as [->|Hne]; [discriminate E9|].
    unfold tw_ws in Hc. rewrite E9 in Hc. discriminate Hc.
  - destruct (Nat.eqb (nat_of_ascii c) 10 || Nat.eqb (nat_of_ascii c) 13);
      f_equal; apply IH; exact Hs.
Qed.

Lemma translate_plain (s : string) : plain_line s = true -> translate_ws s = s.
Proof.
  induction s as [|c s IH]; intros H; [reflexivity|].
  unfold plain_line in H. simpl in H. apply andb_true_iff in H as [Hc Hs].
  simpl. rewrite (IH Hs). f_equal.
  destruct (tw_ws c); [|reflexivity]. simpl in Hc. now apply Ascii.eqb_eq in Hc.
Qed.

Lemma take_fit_all (w k : nat) (cs : list string) :
  k + String.length (concat_str cs) <= w -> take_fit w k cs = (cs, []).
Proof.
  revert k. induction cs as [|c cs IH]; intros k H; [reflexivity|].
  simpl in *. rewrite str_app_length in H.
  destruct (Nat.leb_spec (k + String.length c) w); [|lia].
  rewrite IH by lia. reflexivity.
Qed.

Lemma is_blank_app_char (a : string) (c : ascii) :
  py_isspace c = false -> is_blank (a ++ String c EmptyString) = false.
Proof.
  intros Hc. induction a as [|d a IH]; simpl; [now rewrite Hc|]. now rewrite IH, andb_false_r.
Qed.

Lemma app_suffix_char (x r a : string) (c : ascii) :
  x ++ r = a ++ String c EmptyString -> r <> EmptyString ->
  exists a', r = a' ++ String c EmptyString.
Proof.
  revert a. induction x as [|d x IH]; intros a H Hr; simpl in H; [eauto|].
  destruct a as [|d' a]; simpl in H.
  - injection H as _ H. destruct x, r; try discriminate. contradiction.
  - injection H as _ H. exact (IH a H Hr).
Qed.

(** Non-empty chunks that make up a text ending in a non-whitespace
    character end in a non-blank chunk. *)
Lemma chunks_last (chunks : list string) (a : string) (c : ascii) :
  (forall x, In x chunks -> x <> EmptyString) ->
  concat_str chunks = a ++ String c EmptyString -> py_isspace c = false ->
  chunks <> [] /\ is_blank (last chunks EmptyString) = false.
Proof.
  revert a. induction chunks as [|x rest IH]; intros a Hne Hcat Hc.
  - destruct a; discriminate.
  - split; [discriminate|]. destruct rest as [|y ys].
    + simpl in Hcat. rewrite str_app_nil_r in Hcat. subst x. now apply is_blank_app_char.
    + change (last (x :: y :: ys) EmptyString) with (last (y :: ys) EmptyString).
      change (concat_str (x :: y :: ys)) with (x ++ concat_str (y :: ys)) in Hcat.
      destruct (app_suffix_char _ _ _ _ Hcat) as [a' Ha'].
      { simpl. specialize (Hne y (or_intror (or_introl eq_refl))).
        destruct y; [contradiction | discriminate]. }
      refine (proj2 (IH a' _ Ha' Hc)). intros z Hz. apply Hne. now right.
Qed.

Lemma wrap_step_single (width : nat) (chunks : list string) :
  chunks <> [] -> String.length (concat_str chunks) <= width ->
  is_blank (last chunks EmptyString) = false ->
  wrap_step width [] chunks = ([concat_str chunks], []).
Proof.
  intros Hne Hlen Hlast.
  assert (Hrev : rev chunks = last chunks EmptyString :: rev (removelast chunks)).
  { rewrite (app_removelast_last EmptyString Hne) at 1. now rewrite rev_app_distr. }
  destruct chunks as [|c0 cs0]; [contradiction|].
  unfold wrap_step. cbn [List.length Nat.eqb negb]. rewrite andb_false_r.
  cbv beta iota. rewrite take_fit_all by lia.
  cbv beta iota zeta. rewrite Hrev, Hlast. reflexivity.
Qed.

(** A non-empty line of at most 95 characters, with no tab or other
    line-breaking whitespace and not ending in whitespace, is written as a
    single row, unchanged. *)
Theorem line_ops_short_plain (line a : string) (c : ascii) :
  line = a ++ String c EmptyString -> py_isspace c = false ->
  plain_line line = true -> String.length line <= wrap_width ->
  line_ops line = [MultiCell 0 6 line].
Proof.
  intros -> Hc Hp Hlen. unfold line_ops, textwrap_wrap, munge_whitespace.
  rewrite expand_tabs_plain, translate_plain by exact Hp.
  pose proof (concat_split_chunks (a ++ String c EmptyString)) as Hcat.
  destruct (chunks_last _ a c (split_chunks_nonempty _) Hcat Hc) as [Hne Hlast].
  destruct (split_chunks (a ++ String c EmptyString)) as [|c0 cs0] eqn:E; [contradiction|].
  cbn [wrap_loop chunks_measure].
  rewrite (wrap_step_single wrap_width (c0 :: cs0) Hne) by first [exact Hlast | rewrite Hcat; exact Hlen].
  rewrite Hcat. destruct (String.length c0 + chunks_measure cs0); reflexivity.
Qed.

Lemma line_ops_short_plain_witness :
  line_ops "Led a team of  five engineers." = [MultiCell 0 6 "Led a team of  five engineers."].
Proof.
  apply (line_ops_short_plain _ "Led a team of  five engineers" ".");
    [reflexivity | reflexivity | vm_compute; reflexivity | vm_compute; lia].
Defined.

(** ** [extract_text_from_pdf] *)

Lemma rev_str_app (a b : string) : rev_str (a ++ b) = rev_str b ++ rev_str a.
Proof.
  induction a as [|c a IH]; simpl; [now rewrite str_app_nil_r|].
  now rewrite IH, str_app_assoc.
Qed.

Lemma rev_str_involutive (s : string) : rev_str (rev_str s) = s.
Proof. induction s as [|c s IH]; simpl; [reflexivity|]. now rewrite rev_str_app, IH. Qed.

Lemma py_lstrip_idem (s : string) : py_lstrip (py_lstrip s) = py_lstrip s.
Proof.
  induction s as [|c s IH]; simpl; [reflexivity|].
  destruct (py_isspace c) eqn:E; [exact IH|]. simpl. now rewrite E.
Qed.

Lemma py_rstrip_idem (s : string) : py_rstrip (py_rstrip s) = py_rstrip s.
Proof. unfold py_rstrip. now rewrite rev_str_involutive, py_lstrip_idem. Qed.

Lemma py_lstrip_head (s : string) :
  py_lstrip s = EmptyString
  \/ exists c t, py_lstrip s = String c t /\ py_isspace c = false.
Proof.
  induction s as [|c s IH]; simpl; [now left|].
  destruct (py_isspace c) eqn:E; [exact IH|]. right. eauto.
Qed.

Lemma py_lstrip_app_char (a : string) (c : ascii) :
  py_isspace c = false -> py_lstrip (a ++ String c EmptyString) = py_lstrip a ++ String c EmptyString.
Proof.
  intros Hc. induction a as [|x a IH]; simpl; [now rewrite Hc|].
  destruct (py_isspace x); [exact IH | reflexivity].
Qed.

Lemma py_lstrip_strip (s : string) : py_lstrip (py_strip s) = py_strip s.
Proof.
  unfold py_strip. destruct (py_lstrip_head s) as [->|(c & t & -> & Hc)]; [reflexivity|].
  unfold py_rstrip. simpl rev_str. rewrite py_lstrip_app_char, rev_str_app by exact Hc.
  simpl. now rewrite Hc.
Qed.

(** The extracted text has no leading and no trailing whitespace. *)
Theorem extract_text_stripped (uploaded_file : pdf_upload) :
  py_lstrip (extract_text_from_pdf uploaded_file) = extract_text_from_pdf uploaded_file
  /\ py_rstrip (extract_text_from_pdf uploaded_file) = extract_text_from_pdf uploaded_file.
Proof.
  unfold extract_text_from_pdf.
  destruct uploaded_file as [pages|]; [|split; reflexivity].
  destruct (collect_page_texts pages) as [texts|]; [|split; reflexivity].
  split; [apply py_lstrip_strip | apply py_rstrip_idem].
Qed.

(** ** Whitespace-only lines in [create_pdf_from_text] *)

Lemma ws_app (a b : string) :
  forallb tw_ws (list_ascii_of_string (a ++ b))
  = forallb tw_ws (list_ascii_of_string a) && forallb tw_ws (list_ascii_of_string b).
Proof.
  induction a as [|c a IH]; simpl; [reflexivity|]. now rewrite IH, andb_assoc.
Qed.

Lemma ws_spaces (k : nat) : forallb tw_ws (list_ascii_of_string (spaces k)) = true.
Proof. induction k as [|k IH]; simpl; [reflexivity | exact IH]. Qed.

Lemma ws_expand_tabs (col : nat) (s : string) :
  forallb tw_ws (list_ascii_of_string s) = true ->
  forallb tw_ws (list_ascii_of_string (expand_tabs_from col s)) = true.
Proof.
  revert col. induction s as [|c s IH]; intros col H; [reflexivity|].
  simpl in H. apply andb_true_iff in H as [Hc Hs]. simpl.
  destruct (Nat.eqb (nat_of_ascii c) 9).
  - rewrite ws_app, ws_spaces. simpl. now apply IH.
  - destruct (Nat.eqb (nat_of_ascii c) 10 || Nat.eqb (nat_of_ascii c) 13);
      simpl; rewrite Hc; simpl; now apply IH.
Qed.

Lemma ws_translate (s : string) :
  forallb tw_ws (list_ascii_of_string s) = true ->
  forallb tw_ws (list_ascii_of_string (translate_ws s)) = true.
Proof.
  induction s as [|c s IH]; intros H; [reflexivity|].
  simpl in H. apply andb_true_iff in H as [Hc Hs]. simpl. rewrite Hc, (IH Hs). reflexivity.
Qed.

Lemma ws_run_len_all (l : list ascii) :
  forallb tw_ws l = true -> ws_run_len l = List.length l.
Proof.
  induction l as [|c l IH]; intros H; [reflexivity|].
  simpl in H. apply andb_true_iff in H as [Hc Hl]. simpl. rewrite Hc, (IH Hl). reflexivity.
Qed.

Lemma split_chunks_ws (s : string) :
  forallb tw_ws (list_ascii_of_string s) = true ->
  (split_chunks s = [] /\ s = EmptyString) \/ split_chunks s = [s].
Proof.
  intros H. destruct s as [|c s]; [now left|]. right.
  unfold split_chunks. cbn [list_ascii_of_string List.length]. rewrite split_from_cons.
  assert (Hm : match_len [] (c :: list_ascii_of_string s) = List.length (c :: list_ascii_of_string s)).
  { unfold match_len.
    assert (Hc : tw_ws c = true) by (simpl in H; now apply andb_true_iff in H as [Hc _]).
    rewrite Hc. now apply ws_run_len_all. }
  rewrite Hm, firstn_all, skipn_all.
  change (string_of_list_ascii (c :: list_ascii_of_string s)) with (String c (string_of_list_ascii (list_ascii_of_string s))).
  rewrite string_of_list_ascii_of_string. destruct (List.length (list_ascii_of_string s)); reflexivity.
Qed.

Lemma is_blank_ws (s : string) : forallb tw_ws (list_ascii_of_string s) = true -> is_blank s = true.
Proof.
  induction s as [|c s IH]; intros H; [reflexivity|].
  simpl in H. apply andb_true_iff in H as [Hc Hs]. simpl.
  now rewrite (tw_ws_isspace c Hc), (IH Hs).
Qed.

Lemma str_take_blank (n : nat) (s : string) : is_blank s = true -> is_blank (str_take n s) = true.
Proof.
  revert s. induction n as [|n IH]; intros [|c s] H; simpl in *; try reflexivity.
  apply andb_true_iff in H as [Hc Hs]. now rewrite Hc, (IH s Hs).
Qed.

Lemma str_drop_blank (n : nat) (s : string) : is_blank s = true -> is_blank (str_drop n s) = true.
Proof.
  revert s. induction n as [|n IH]; intros [|c s] H; simpl in *; try exact H; try reflexivity.
  apply andb_true_iff in H as [_ Hs]. exact (IH s Hs).
Qed.

(** Before any line is emitted, a pass over a single blank chunk emits
    nothing and leaves at most a blank chunk. *)
Lemma wrap_step_blank (width : nat) (x : string) :
  is_blank x = true ->
  exists chunks', wrap_step width [] [x] = ([], chunks') /\ blank_chunks chunks'.
Proof.
  intros Hx. unfold wrap_step. cbn [List.length Nat.eqb negb]. rewrite andb_false_r.
  cbv beta iota.
  assert (Ht : take_fit width 0 [x] = ([x], []) \/ take_fit width 0 [x] = ([], [x])).
  { simpl. destruct (Nat.leb (String.length x) width); auto. }
  destruct Ht as [-> | ->]; cbv beta iota zeta.
  - cbn [rev app]. rewrite Hx. cbn [removelast]. exists []. split; [reflexivity | now left].
  - destruct (Nat.ltb width (String.length x)).
    + unfold handle_long_word. cbv beta iota zeta. cbn [rev app].
      rewrite str_take_blank by exact Hx. cbn [removelast].
      eexists; split; [reflexivity|]. right. eexists; split; [reflexivity|].
      now apply str_drop_blank.
    + cbn [rev]. exists [x]. split; [reflexivity|]. right. eauto.
Qed.

Lemma wrap_loop_blank (width fuel : nat) (chunks : list string) :
  blank_chunks chunks -> wrap_loop width fuel [] chunks = [].
Proof.
  revert chunks. induction fuel as [|f IH]; intros chunks H; [reflexivity|].
  destruct H as [->|(x & -> & Hx)]; [reflexivity|].
  cbn [wrap_loop]. destruct (wrap_step_blank width x Hx) as (c' & -> & Hc'). now apply IH.
Qed.

(** A line made only of [textwrap] whitespace (including the empty line)
    is written as a 5-unit vertical gap and nothing else. *)
Theorem line_ops_blank (line : string) :
  forallb tw_ws (list_ascii_of_string line) = true -> line_ops line = [Ln 5].
Proof.
  intros H. unfold line_ops, textwrap_wrap.
  assert (Hm : forallb tw_ws (list_ascii_of_string (munge_whitespace line)) = true).
  { unfold munge_whitespace. now apply ws_translate, ws_expand_tabs. }
  rewrite wrap_loop_blank; [reflexivity|].
  destruct (split_chunks_ws _ Hm) as [[-> _]| ->]; [now left|].
  right. eexists; split; [reflexivity|]. now apply is_blank_ws.
Qed.

Lemma line_ops_blank_witness : line_ops (String "009" "   ") = [Ln 5].
Proof. apply line_ops_blank. reflexivity. Defined.
